(** * BinkAgentNode: the node execution driver and its output normalisation

    A shallow embedding of [BinkAgentNode.execute]
    (src/nodes/BinkAgentNode/BinkAgentNode.node.ts, lines 270-390).

    JavaScript values are an inductive type, objects are finite maps from
    property names to values, and the calls the driver makes to its
    collaborators (the n8n host, the LangChain memory, the Bink agent) are
    threaded through a state-and-exception monad that records every call
    in a trace. *)

From Stdlib Require Import SpecFloat.
From stdpp Require Import gmap strings list fin_maps.

Set Warnings "-register-all".

(** ** JavaScript values *)

Inductive value : Type :=
| VUndefined
| VNull
| VBool (b : bool)
| VNumber (x : spec_float)
| VString (s : string)
| VArray (xs : list value)
| VObject (fields : gmap string value).

(** A plain object, as returned by [binkAgent.execute] or by
    [getCredentials]. *)
Abbreviation object := (gmap string value).

(** ToBoolean: what [if (v)] and [v || w] test. *)
Definition truthy (v : value) : bool :=
  match v with
  | VUndefined | VNull => false
  | VBool b => b
  | VNumber (S754_zero _) | VNumber S754_nan => false
  | VNumber _ => true
  | VString s => negb (String.eqb s "")
  | VArray _ | VObject _ => true
  end.

(** [a || b] *)
Definition js_or (a b : value) : value := if truthy a then a else b.

(** [a ?? b] *)
Definition nullish (a b : value) : value :=
  match a with
  | VUndefined | VNull => b
  | _ => a
  end.

(** [v !== undefined] *)
Definition not_undefined (v : value) : bool :=
  match v with
  | VUndefined => false
  | _ => true
  end.

(** [o.k] on an object: a property that is not there reads as undefined. *)
Definition prop (o : object) (k : string) : value := default VUndefined (o !! k).

(** [v?.output]: short-circuits on null and undefined; strings, numbers,
    booleans and arrays have no [output] property. *)
Definition optional_output (v : value) : value :=
  match v with
  | VObject fields => prop fields "output"
  | _ => VUndefined
  end.

(** The double-quote character, for the string literals that contain it. *)
Definition dquote : string := String (Ascii.ascii_of_nat 34) EmptyString.

(** ** Errors and outcomes *)

(** A call returns, or throws: any value can be thrown. *)
Inductive outcome (A : Type) : Type :=
| Ok (a : A)
| Throw (e : value).
Arguments Ok {A} a.
Arguments Throw {A} e.

(** An [Error] object, by its [name] and [message]. *)
Definition error_object (name message : string) : value :=
  VObject {[ "name" := VString name; "message" := VString message ]}.

(** [v.message] on a value that has properties: the property of an
    object; undefined on a string, a number, a boolean or an array. *)
Definition read_message (v : value) : value :=
  match v with
  | VObject fields => prop fields "message"
  | _ => VUndefined
  end.

(** [error.message] (line 380): on null and undefined the read itself
    throws the TypeError of the engine. *)
Definition error_message (error : value) : outcome value :=
  match error with
  | VUndefined =>
      Throw (error_object "TypeError"
               "Cannot read properties of undefined (reading 'message')")
  | VNull =>
      Throw (error_object "TypeError"
               "Cannot read properties of null (reading 'message')")
  | _ => Ok (read_message error)
  end.

(** ** Items of the node's output *)

(** [INodeExecutionData], with the two properties the driver sets. *)
Record node_item : Type := NodeItem { json : object; pairedItem : option nat }.

(** ** Output normalisation (lines 357-373) *)

(** lodash [omit(object, ...paths)] for top-level property names: the
    object is copied and each path is unset in turn. *)
Definition omit (o : object) (paths : list string) : object :=
  fold_left (fun acc k => delete k acc) paths o.

Definition bookkeeping : list string :=
  ["system_message"; "formatting_instructions"; "input"; "chat_history";
   "agent_scratchpad"].

(** Lines 364-373: the item pushed for a response. *)
Definition itemResult (response : object) : node_item :=
  {| json := omit response bookkeeping; pairedItem := None |}.

(** Lines 357-362. [jsonParse] is n8n-workflow's: it returns the parsed
    value or throws. *)
Definition parseOutput (jsonParse : value -> outcome value)
    (outputParser : value) (response : object) : outcome object :=
  if truthy outputParser then
    match jsonParse (prop response "output") with
    | Ok parsedOutput =>
        Ok (<["output" := nullish (optional_output parsedOutput) parsedOutput]> response)
    | Throw e => Throw e
    end
  else Ok response.

(** Lines 357-373 together. *)
Definition normalize (jsonParse : value -> outcome value)
    (outputParser : value) (response : object) : outcome node_item :=
  match parseOutput jsonParse outputParser response with
  | Ok response' => Ok (itemResult response')
  | Throw e => Throw e
  end.

(** ** Tool discovery (lines 286-292) *)

(** An element of [getTools]'s array: [{ tool, plugin? }]; a missing
    [plugin] reads as undefined. *)
Record tool_with_plugin : Type := ToolWithPlugin { tool : value; plugin : value }.

(** The [for ... of] loop of lines 288-291, pushing onto both arrays. *)
Fixpoint collect (toolsWithPlugins : list tool_with_plugin)
    (tools plugins : list value) : list value * list value :=
  match toolsWithPlugins with
  | [] => (tools, plugins)
  | t :: rest => collect rest (tools ++ [tool t]) (plugins ++ [plugin t])
  end.

(** Line 292: [plugins.filter(plugin => plugin !== undefined)]. *)
Definition compact (plugins : list value) : list value :=
  List.filter not_undefined plugins.

(** ** Wallet seed (lines 309-311) *)

Definition placeholderSeed : string :=
  "test test test test test test test test test test test test".

Definition seedPhrase (baseCredentials : object) : value :=
  js_or (prop baseCredentials "mnemonic") (VString placeholderSeed).

(** ** The driver's collaborators *)

(** Lines 280-284: [{ BNB, ETH, SOL }] read from the credentials. *)
Record rpc_urls : Type := RpcUrls { BNB : value; ETH : value; SOL : value }.

(** The nine arguments of [new N8nBinkAgent(...)] (lines 317-330); the
    sixth is the literal [{ temperature: 0.5, systemPrompt: SYSTEM_MESSAGE }]. *)
Record agent_args : Type := AgentArgs {
  arg_llm : value;
  arg_typeAgent : value;
  arg_memory : value;
  arg_tools : list value;
  arg_outputParser : value;
  arg_temperature : spec_float;
  arg_systemPrompt : value;
  arg_wallet : value;
  arg_networks : value;
  arg_n8nOptions : value
}.

(** 0.5 as a binary64 number. *)
Definition one_half : spec_float := S754_finite false 4503599627370496 (-53).

(** A call of a collaborator: it sees and may change the world outside
    the driver, and returns or throws. *)
Definition Ext (W A : Type) : Type := W -> outcome A * W.

(** Everything [execute] calls that is not in this file of the repository.
    Agent instances are named by the number they get at construction. *)
Record Host (W : Type) : Type := MkHost {
  getNodeParameterAgent : Ext W value;
  getInputData : Ext W (list value);
  getOptionalOutputParser : Ext W value;
  getTools : Ext W (list tool_with_plugin);
  getCredentials : Ext W object;
  getChatModel : Ext W value;
  newN8nLLM : value -> Ext W value;
  getOptionalMemory : Ext W value;
  getNodeParameterOptions : nat -> Ext W value;
  getNetworksConfig : rpc_urls -> Ext W value;
  newNetwork : value -> Ext W value;
  newWallet : value -> nat -> value -> Ext W value;
  newN8nBinkAgent : nat -> agent_args -> Ext W unit;
  registerPlugin : nat -> value -> Ext W unit;
  getPromptInputByType : nat -> Ext W value;
  loadMemoryVariables : value -> Ext W value;
  agentExecute : nat -> value -> option value -> Ext W object;
  jsonParse : value -> outcome value;
  continueOnFail : W -> bool;
  SYSTEM_MESSAGE : value
}.
Arguments getNodeParameterAgent {W} _.
Arguments getInputData {W} _.
Arguments getOptionalOutputParser {W} _.
Arguments getTools {W} _.
Arguments getCredentials {W} _.
Arguments getChatModel {W} _.
Arguments newN8nLLM {W} _ _.
Arguments getOptionalMemory {W} _.
Arguments getNodeParameterOptions {W} _ _.
Arguments getNetworksConfig {W} _ _.
Arguments newNetwork {W} _ _.
Arguments newWallet {W} _ _ _ _.
Arguments newN8nBinkAgent {W} _ _ _.
Arguments registerPlugin {W} _ _ _.
Arguments getPromptInputByType {W} _ _.
Arguments loadMemoryVariables {W} _ _.
Arguments agentExecute {W} _ _ _ _.
Arguments jsonParse {W} _ _.
Arguments continueOnFail {W} _ _.
Arguments SYSTEM_MESSAGE {W} _.

(** ** The trace of calls *)

Inductive event : Type :=
| EvGetNodeParameterAgent
| EvGetInputData
| EvGetOptionalOutputParser
| EvGetTools
| EvGetCredentials
| EvGetChatModel
| EvNewN8nLLM (model : value)
| EvGetOptionalMemory
| EvGetNodeParameterOptions (itemIndex : nat)
| EvGetNetworksConfig (urls : rpc_urls)
| EvNewNetwork (networks : value)
| EvNewWallet (seed : value) (index : nat) (network : value)
| EvNewN8nBinkAgent (instance : nat) (args : agent_args)
| EvRegisterPlugin (instance : nat) (handle : value)
| EvGetPromptInputByType (itemIndex : nat)
| EvLoadMemoryVariables (memory : value)
| EvExecute (instance : nat) (input : value) (chatHistory : option value)
| EvConsoleLog (e : value).

(** The driver's view of a run: the world of the collaborators, the number
    the next constructed agent gets, and the calls made so far, oldest
    first. *)
Record state (W : Type) : Type := MkState {
  world : W;
  next_instance : nat;
  trace : list event
}.
Arguments MkState {W} _ _ _.
Arguments world {W} _.
Arguments next_instance {W} _.
Arguments trace {W} _.

(** ** The driver monad: state and exceptions *)

Definition M (W A : Type) : Type := state W -> outcome A * state W.

Definition ret {W A} (a : A) : M W A := fun s => (Ok a, s).

Definition bind {W A B} (m : M W A) (f : A -> M W B) : M W B :=
  fun s =>
    match m s with
    | (Ok a, s') => f a s'
    | (Throw e, s') => (Throw e, s')
    end.

Definition throw {W A} (e : value) : M W A := fun s => (Throw e, s).

Definition lift {W A} (o : outcome A) : M W A := fun s => (o, s).

(** The event is recorded, then the collaborator runs. *)
Definition call {W A} (ev : event) (op : Ext W A) : M W A :=
  fun s =>
    let (r, w) := op (world s) in
    (r, MkState w (next_instance s) (trace s ++ [ev])).

(** [new]: a new object, distinct from every object made before. *)
Definition alloc {W} : M W nat :=
  fun s => (Ok (next_instance s), MkState (world s) (S (next_instance s)) (trace s)).

(** [try { m } catch (error) { handler error }] *)
Definition try_catch {W A} (m : M W A) (handler : value -> M W A) : M W A :=
  fun s =>
    match m s with
    | (Ok a, s') => (Ok a, s')
    | (Throw e, s') => handler e s'
    end.

Notation "'let*' x ':=' m 'in' k" := (bind m (fun x => k))
  (at level 10, x name, m at level 200, k at level 200).

(** ** The driver: [execute] (lines 270-390) *)

(** What [execute] has in its local variables when the loop over the
    items starts (lines 271-292). The loop assigns none of them; the
    [tools] array is handed to every agent constructor, which is taken
    not to change it. *)
Record locals : Type := Locals {
  typeAgent : value;
  outputParser : value;
  baseCredentials : object;
  RPC_URLS : rpc_urls;
  tools : list value;
  plugins : list value
}.

(** Line 345: [new NodeOperationError(this.getNode(), '...')]. *)
Definition textParameterEmpty : value :=
  error_object "NodeOperationError"
    ("The " +:+ dquote +:+ "text" +:+ dquote +:+ " parameter is empty.").

(** Lines 379-382: the item pushed for a failure under continue-on-fail,
    when [error.message] can be read. *)
Definition errorItem (error : value) (itemIndex : nat) : outcome node_item :=
  match error_message error with
  | Ok message =>
      Ok {| json := {[ "error" := js_or message (VString "An error occurred") ]};
            pairedItem := Some itemIndex |}
  | Throw typeError => Throw typeError
  end.

(** The state after the [console.log] of the [catch]. *)
Definition logged {W} (e : value) (s : state W) : state W :=
  MkState (world s) (next_instance s) (trace s ++ [EvConsoleLog e]).

Section Driver.
Context {W : Type} (h : Host W).

(** Lines 317-330. *)
Definition newAgent (args : agent_args) : M W nat :=
  let* binkAgent := alloc in
  let* _ := call (EvNewN8nBinkAgent binkAgent args) (newN8nBinkAgent h binkAgent args) in
  ret binkAgent.

(** Lines 333-335. *)
Fixpoint registerPlugins (binkAgent : nat) (plugins : list value) : M W unit :=
  match plugins with
  | [] => ret tt
  | p :: rest =>
      let* _ := call (EvRegisterPlugin binkAgent p) (registerPlugin h binkAgent p) in
      registerPlugins binkAgent rest
  end.

(** Lines 295-335: everything up to and including the registration of
    the plugins. The agent and the memory are what the rest of the
    iteration uses. *)
Definition buildAgent (l : locals) (itemIndex : nat) : M W (nat * value) :=
  let* model := call EvGetChatModel (getChatModel h) in
  let* llm := call (EvNewN8nLLM model) (newN8nLLM h model) in
  let* memory := call EvGetOptionalMemory (getOptionalMemory h) in
  let* n8nOptions := call (EvGetNodeParameterOptions itemIndex)
                          (getNodeParameterOptions h itemIndex) in
  let* networks := call (EvGetNetworksConfig (RPC_URLS l))
                        (getNetworksConfig h (RPC_URLS l)) in
  let* network := call (EvNewNetwork networks) (newNetwork h networks) in
  let* wallet := call (EvNewWallet (seedPhrase (baseCredentials l)) 0 network)
                      (newWallet h (seedPhrase (baseCredentials l)) 0 network) in
  let* binkAgent := newAgent {| arg_llm := llm;
                                arg_typeAgent := typeAgent l;
                                arg_memory := memory;
                                arg_tools := tools l;
                                arg_outputParser := outputParser l;
                                arg_temperature := one_half;
                                arg_systemPrompt := SYSTEM_MESSAGE h;
                                arg_wallet := wallet;
                                arg_networks := networks;
                                arg_n8nOptions := n8nOptions |} in
  let* _ := registerPlugins binkAgent (plugins l) in
  ret (binkAgent, memory).

(** Lines 337-354: the prompt input, its check, and the one call of
    [binkAgent.execute]. *)
Definition runAgent (binkAgent : nat) (memory : value) (itemIndex : nat) : M W object :=
  let* input := call (EvGetPromptInputByType itemIndex) (getPromptInputByType h itemIndex) in
  if not_undefined input then
    if truthy memory then
      let* chatHistory := call (EvLoadMemoryVariables memory) (loadMemoryVariables h memory) in
      call (EvExecute binkAgent input (Some chatHistory))
           (agentExecute h binkAgent input (Some chatHistory))
    else
      call (EvExecute binkAgent input None) (agentExecute h binkAgent input None)
  else throw textParameterEmpty.

(** Lines 295-373: the body of the [try]. *)
Definition processItem (l : locals) (itemIndex : nat) : M W node_item :=
  let* am := buildAgent l itemIndex in
  let* response := runAgent (fst am) (snd am) itemIndex in
  lift (normalize (jsonParse h) (outputParser l) response).

(** Lines 376-386: the [catch]. *)
Definition handleError (returnData : list node_item) (itemIndex : nat)
    (error : value) : M W (list node_item) :=
  fun s =>
    let s' := logged error s in
    if continueOnFail h (world s') then
      match errorItem error itemIndex with
      | Ok item => (Ok (returnData ++ [item]), s')
      | Throw typeError => (Throw typeError, s')
      end
    else (Throw error, s').

(** Lines 294-386: one iteration, giving [returnData] after it. *)
Definition tryItem (l : locals) (returnData : list node_item) (itemIndex : nat)
    : M W (list node_item) :=
  try_catch
    (let* itemResult := processItem l itemIndex in ret (returnData ++ [itemResult]))
    (handleError returnData itemIndex).

(** Line 293: the [for] loop, with [remaining] iterations to go. *)
Fixpoint loop (l : locals) (remaining itemIndex : nat) (returnData : list node_item)
    : M W (list node_item) :=
  match remaining with
  | 0 => ret returnData
  | S remaining' =>
      let* returnData' := tryItem l returnData itemIndex in
      loop l remaining' (S itemIndex) returnData'
  end.

(** Lines 286-292 as a function of what [getTools] returned. *)
Definition discovered (toolsWithPlugins : list tool_with_plugin) : list value * list value :=
  let tp := collect toolsWithPlugins [] [] in
  (fst tp, compact (snd tp)).

(** Lines 271-292. *)
Definition prepare : M W (locals * nat) :=
  let* typeAgent := call EvGetNodeParameterAgent (getNodeParameterAgent h) in
  let* items := call EvGetInputData (getInputData h) in
  let* outputParser := call EvGetOptionalOutputParser (getOptionalOutputParser h) in
  let* toolsWithPlugins := call EvGetTools (getTools h) in
  let* baseCredentials := call EvGetCredentials (getCredentials h) in
  ret ({| typeAgent := typeAgent;
          outputParser := outputParser;
          baseCredentials := baseCredentials;
          RPC_URLS := {| BNB := prop baseCredentials "bnbRpcUrl";
                         ETH := prop baseCredentials "ethRpcUrl";
                         SOL := prop baseCredentials "solRpcUrl" |};
          tools := fst (discovered toolsWithPlugins);
          plugins := snd (discovered toolsWithPlugins) |},
       length items).

Definition execute : M W (list (list node_item)) :=
  let* li := prepare in
  let* returnData := loop (fst li) (snd li) 0 [] in
  ret [returnData].

End Driver.

(** ** Network configuration *)

Module NetworksSpec.

(** Modelled from the spec: [getNetworksConfig] of utils/networks is not
    among the sources, and [execute] hands it the three credential values
    as they are (lines 280-284 and 305). The spec (4.2) has the builder
    accept an RPC URL into the NetworkConfig only when it is a non-empty
    string. *)
Definition validRpcUrl (url : value) : bool :=
  match url with
  | VString s => negb (String.eqb s "")
  | _ => false
  end.

(** The URL supplied for a chain symbol, undefined for an unknown chain. *)
Definition supplied (urls : rpc_urls) (chain : string) : value :=
  if String.eqb chain "BNB" then BNB urls
  else if String.eqb chain "ETH" then ETH urls
  else if String.eqb chain "SOL" then SOL urls
  else VUndefined.

Definition accept (chain : string) (url : value) (config : object) : object :=
  if validRpcUrl url then <[chain := url]> config else config.

(** Modelled from the spec: the NetworkConfig, a mapping from chain symbol
    to RPC URL, built without raising; a URL that fails the check is left
    out. *)
Definition getNetworksConfig (urls : rpc_urls) : object :=
  accept "BNB" (BNB urls) (accept "ETH" (ETH urls) (accept "SOL" (SOL urls) ∅)).

Definition capabilityError (chain : string) : value :=
  error_object "CapabilityError" ("no RPC URL for chain " +:+ chain).

(** Modelled from the spec: what a plugin meets when it is exercised on a
    chain: the accepted URL, or the deferred capability error. *)
Definition exercise (config : object) (chain : string) : outcome value :=
  match config !! chain with
  | Some url => Ok url
  | None => Throw (capabilityError chain)
  end.

End NetworksSpec.

(** ** A small host, for running the driver on concrete inputs *)

Module Sample.

Definition one : spec_float := S754_finite false 4503599627370496 (-52).

Definition quoted (s : string) : string := dquote +:+ s +:+ dquote.

(** The text of [{"output":{"a":1}}]. *)
Definition wrappedText : string := "{" +:+ quoted "output" +:+ ":{" +:+ quoted "a" +:+ ":1}}".

(** The text of [{"a":1}]. *)
Definition bareText : string := "{" +:+ quoted "a" +:+ ":1}".

(** The text of [{"output":null}]. *)
Definition nullText : string := "{" +:+ quoted "output" +:+ ":null}".

Definition payload : value := VObject {[ "a" := VNumber one ]}.

Definition syntaxError : value :=
  error_object "SyntaxError" "Unexpected token".

(** [JSON.parse] on the three texts above; every other input is taken to
    be unparseable. *)
Definition parse (v : value) : outcome value :=
  match v with
  | VString s =>
      if String.eqb s wrappedText then Ok (VObject {[ "output" := payload ]})
      else if String.eqb s bareText then Ok payload
      else if String.eqb s nullText then Ok (VObject {[ "output" := VNull ]})
      else Throw syntaxError
  | _ => Throw syntaxError
  end.

Definition walletPlugin : value := VObject {[ "name" := VString "wallet" ]}.

Definition toolsWithPlugins : list tool_with_plugin :=
  [ {| tool := VString "getBalance"; plugin := walletPlugin |};
    {| tool := VString "calculator"; plugin := VUndefined |};
    {| tool := VString "noop"; plugin := VNull |} ].

Definition credentials : object :=
  {[ "bnbRpcUrl" := VString "https://bsc.example"; "ethRpcUrl" := VString "" ]}.

Definition question : value := VString "What is my BNB balance?".

Definition history : value := VObject {[ "chat_history" := VArray [] ]}.

Definition respond (answer input : value) : object :=
  {[ "output" := answer; "input" := input; "chat_history" := VArray [];
     "agent_scratchpad" := VString "" ]}.

(** The world is the number of agent executions so far. Item 1 has no
    prompt text; every call but the parser's succeeds. *)
Definition host (continue : bool) (memory parser answer : value) : Host nat :=
  {| getNodeParameterAgent := fun w => (Ok (VString "toolsAgent"), w);
     getInputData := fun w => (Ok [VObject ∅; VObject ∅; VObject ∅], w);
     getOptionalOutputParser := fun w => (Ok parser, w);
     getTools := fun w => (Ok toolsWithPlugins, w);
     getCredentials := fun w => (Ok credentials, w);
     getChatModel := fun w => (Ok (VString "model"), w);
     newN8nLLM := fun model w => (Ok model, w);
     getOptionalMemory := fun w => (Ok memory, w);
     getNodeParameterOptions := fun _ w => (Ok (VObject ∅), w);
     getNetworksConfig := fun urls w => (Ok (VObject (NetworksSpec.getNetworksConfig urls)), w);
     newNetwork := fun networks w => (Ok networks, w);
     newWallet := fun seed _ _ w => (Ok (VObject {[ "seedPhrase" := seed ]}), w);
     newN8nBinkAgent := fun _ _ w => (Ok tt, w);
     registerPlugin := fun _ _ w => (Ok tt, w);
     getPromptInputByType := fun i w => (Ok (if Nat.eqb i 1 then VUndefined else question), w);
     loadMemoryVariables := fun _ w => (Ok history, w);
     agentExecute := fun _ input _ w => (Ok (respond answer input), S w);
     jsonParse := parse;
     continueOnFail := fun _ => continue;
     SYSTEM_MESSAGE := VString "You are a helpful blockchain assistant."
  |}.

Definition start : state nat := MkState 0 0 [].

(** The same host, on which the chat model cannot be had: [getChatModel]
    throws [thrown]. *)
Definition failing (continue : bool) (thrown : value) : Host nat :=
  let h := host continue VUndefined VUndefined VNull in
  {| getNodeParameterAgent := getNodeParameterAgent h;
     getInputData := getInputData h;
     getOptionalOutputParser := getOptionalOutputParser h;
     getTools := getTools h;
     getCredentials := getCredentials h;
     getChatModel := fun w => (Throw thrown, w);
     newN8nLLM := newN8nLLM h;
     getOptionalMemory := getOptionalMemory h;
     getNodeParameterOptions := getNodeParameterOptions h;
     getNetworksConfig := getNetworksConfig h;
     newNetwork := newNetwork h;
     newWallet := newWallet h;
     newN8nBinkAgent := newN8nBinkAgent h;
     registerPlugin := registerPlugin h;
     getPromptInputByType := getPromptInputByType h;
     loadMemoryVariables := loadMemoryVariables h;
     agentExecute := agentExecute h;
     jsonParse := jsonParse h;
     continueOnFail := continueOnFail h;
     SYSTEM_MESSAGE := SYSTEM_MESSAGE h
  |}.

(** The locals that lines 271-292 compute on this host. *)
Definition sampleLocals (parser : value) : locals :=
  {| typeAgent := VString "toolsAgent";
     outputParser := parser;
     baseCredentials := credentials;
     RPC_URLS := {| BNB := VString "https://bsc.example";
                    ETH := VString "";
                    SOL := VUndefined |};
     tools := [VString "getBalance"; VString "calculator"; VString "noop"];
     plugins := [walletPlugin; VNull] |}.

(** Credentials that carry a mnemonic. *)
Definition fundedCredentials : object :=
  <["mnemonic" := VString "legal winner thank year wave sausage worth useful legal winner thank yellow"]>
    credentials.

End Sample.

(** ** The registry's views, in the words of the spec *)

(** The spec (4.1, 9) has an optional plugin handle per tool, absent when
    the tool brought none, and a compaction that drops the absent ones. *)
Definition spec_handle (t : tool_with_plugin) : option value :=
  match plugin t with
  | VUndefined => None
  | present => Some present
  end.

Definition spec_tools (toolsWithPlugins : list tool_with_plugin) : list value :=
  map tool toolsWithPlugins.

Definition spec_plugins (toolsWithPlugins : list tool_with_plugin) : list value :=
  omap spec_handle toolsWithPlugins.

(** ** The calls made on one agent instance *)

Inductive agent_call : Type :=
| CallNew
| CallRegisterPlugin (handle : value)
| CallExecute.

(** The calls of a trace that construct or use instance [a], in order. *)
Fixpoint agent_calls (a : nat) (t : list event) : list agent_call :=
  match t with
  | [] => []
  | EvNewN8nBinkAgent b _ :: t' =>
      if Nat.eqb a b then CallNew :: agent_calls a t' else agent_calls a t'
  | EvRegisterPlugin b p :: t' =>
      if Nat.eqb a b then CallRegisterPlugin p :: agent_calls a t' else agent_calls a t'
  | EvExecute b _ _ :: t' =>
      if Nat.eqb a b then CallExecute :: agent_calls a t' else agent_calls a t'
  | _ :: t' => agent_calls a t'
  end.

(** The life of an instance that serves an item to the end: constructed,
    given every plugin of the compacted list in order, executed once. *)
Definition lifecycle (plugins : list value) : list agent_call :=
  CallNew :: map CallRegisterPlugin plugins ++ [CallExecute].

(** No instance numbered [next_instance] or above has been constructed or
    used yet. *)
Definition fresh_above {W} (s : state W) : Prop :=
  forall a, next_instance s <= a -> agent_calls a (trace s) = [].

(** What the driver asks of a wallet construction: the seed of lines
    309-311 and index 0. *)
Definition wallet_ok (l : locals) (ev : event) : Prop :=
  match ev with
  | EvNewWallet seed index _ => seed = seedPhrase (baseCredentials l) /\ index = 0
  | _ => True
  end.

(** What holds between the iterations of the loop: the next instance is
    new, and every instance so far has gone through a part of the
    lifecycle, from its start. *)
Definition sequenced {W} (l : locals) (s : state W) : Prop :=
  fresh_above s
  /\ forall a, agent_calls a (trace s) `prefix_of` lifecycle (plugins l).

(** ** The node's inputs: [getInputs] (lines 31-126) *)

Module Inputs.

(** [INodeInputFilter], of which the node uses [nodes]. *)
Record INodeInputFilter : Type := InputFilter { nodes : list string }.

(** [SpecialInput] (lines 40-44); an optional property that is not there
    is [None]. *)
Record SpecialInput : Type := MkSpecialInput {
  si_type : string;
  si_filter : option INodeInputFilter;
  si_required : option bool
}.

(** [INodeInputConfiguration] as lines 65-78 build it; [displayName] and
    [maxConnections] may be undefined, [filter] may be absent. *)
Record INodeInputConfiguration : Type := MkInputConfiguration {
  in_type : string;
  in_displayName : option string;
  in_required : bool;
  in_maxConnections : option nat;
  in_filter : option INodeInputFilter
}.

(** An element of the array [getInputs] returns: a connection type by
    name, or a configuration. *)
Inductive node_input : Type :=
| Connection (type : string)
| Configured (input : INodeInputConfiguration).

Definition input_type (i : node_input) : string :=
  match i with
  | Connection type => type
  | Configured input => in_type input
  end.

(** Lines 49-54. The lookup [type in displayNames ? displayNames[type] :
    undefined] is taken on the four keys of the literal: [getInputData]
    is local to [getInputs] and only gets the connection types of lines
    87-117. *)
Definition displayNames : gmap string string :=
  {[ "ai_languageModel" := "Model"; "ai_memory" := "Memory"; "ai_tool" := "Tool";
     "ai_outputParser" := "Output Parser" ]}.

(** [v === 'text'] *)
Definition is_string (v : value) (text : string) : bool :=
  match v with
  | VString s => String.eqb s text
  | _ => false
  end.

(** [[...].includes(v)] on an array of strings. *)
Definition includes (texts : list string) (v : value) : bool :=
  existsb (is_string v) texts.

(** Lines 46-82. *)
Definition getInputData (agent : value) (inputs : list SpecialInput)
    : list INodeInputConfiguration :=
  map (fun si =>
         let type := si_type si in
         let isModelType := String.eqb type "ai_languageModel" in
         let displayName :=
           if isModelType
              && includes ["openAiFunctionsAgent"; "toolsAgent"; "conversationalAgent"] agent
           then Some "Chat Model"
           else displayNames !! type in
         {| in_type := type;
            in_displayName := displayName;
            in_required := isModelType;
            in_maxConnections :=
              if existsb (String.eqb type) ["ai_languageModel"; "ai_memory"; "ai_outputParser"]
              then Some 1 else None;
            in_filter := si_filter si |})
      inputs.

(** Lines 87-117. *)
Definition toolsAgentInputs : list SpecialInput :=
  [ {| si_type := "ai_languageModel";
       si_filter :=
         Some {| nodes :=
                   [ "@n8n/n8n-nodes-langchain.lmChatAnthropic";
                     "@n8n/n8n-nodes-langchain.lmChatAzureOpenAi";
                     "@n8n/n8n-nodes-langchain.lmChatAwsBedrock";
                     "@n8n/n8n-nodes-langchain.lmChatMistralCloud";
                     "@n8n/n8n-nodes-langchain.lmChatOllama";
                     "@n8n/n8n-nodes-langchain.lmChatOpenAi";
                     "@n8n/n8n-nodes-langchain.lmChatGroq";
                     "@n8n/n8n-nodes-langchain.lmChatGoogleVertex";
                     "@n8n/n8n-nodes-langchain.lmChatGoogleGemini";
                     "@n8n/n8n-nodes-langchain.lmChatDeepSeek";
                     "@n8n/n8n-nodes-langchain.lmChatOpenRouter";
                     "@n8n/n8n-nodes-langchain.lmChatXAiGrok" ] |};
       si_required := None |};
    {| si_type := "ai_memory"; si_filter := None; si_required := None |};
    {| si_type := "ai_tool"; si_filter := None; si_required := Some true |};
    {| si_type := "ai_outputParser"; si_filter := None; si_required := None |} ].

(** [v === false] *)
Definition is_false (v : value) : bool :=
  match v with
  | VBool false => true
  | _ => false
  end.

(** [v === true] *)
Definition is_true (v : value) : bool :=
  match v with
  | VBool true => true
  | _ => false
  end.

(** Lines 31-126. *)
Definition getInputs (agent hasOutputParser : value) : list node_input :=
  let specialInputs :=
    if is_string agent "toolsAgent" then toolsAgentInputs else [] in
  let specialInputs :=
    if is_false hasOutputParser
    then List.filter (fun input => negb (String.eqb (si_type input) "ai_outputParser"))
           specialInputs
    else specialInputs in
  Connection "main" :: map Configured (getInputData agent specialInputs).

(** Lines 213-218: the expression of the node's [inputs], on the node's
    parameters. *)
Definition inputs (parameter : object) : list node_input :=
  getInputs (prop parameter "agent")
    (VBool (negb (not_undefined (prop parameter "hasOutputParser"))
            || is_true (prop parameter "hasOutputParser"))).

End Inputs.

(** ** Events by the place they come from *)

(** The calls of lines 271-277, in order. *)
Definition preparatory : list event :=
  [EvGetNodeParameterAgent; EvGetInputData; EvGetOptionalOutputParser; EvGetTools;
   EvGetCredentials].

Definition is_preparatory (ev : event) : bool :=
  match ev with
  | EvGetNodeParameterAgent | EvGetInputData | EvGetOptionalOutputParser | EvGetTools
  | EvGetCredentials => true
  | _ => false
  end.

(** What an event made in the [try] of item [i], with instance [a], looks
    like. *)
Definition item_event {W} (h : Host W) (l : locals) (a i : nat) (ev : event) : Prop :=
  match ev with
  | EvGetChatModel | EvNewN8nLLM _ | EvGetOptionalMemory | EvNewNetwork _ => True
  | EvGetNodeParameterOptions j => j = i
  | EvGetNetworksConfig urls => urls = RPC_URLS l
  | EvNewWallet seed index _ => seed = seedPhrase (baseCredentials l) /\ index = 0
  | EvNewN8nBinkAgent b args =>
      b = a
      /\ arg_typeAgent args = typeAgent l
      /\ arg_tools args = tools l
      /\ arg_outputParser args = outputParser l
      /\ arg_temperature args = one_half
      /\ arg_systemPrompt args = SYSTEM_MESSAGE h
  | EvRegisterPlugin b p => b = a /\ p ∈ plugins l
  | EvGetPromptInputByType j => j = i
  | EvLoadMemoryVariables memory => truthy memory = true
  | EvExecute b input _ => b = a /\ input <> VUndefined
  | _ => False
  end.

(** What an event made by the loop over items [i], ..., [i + n - 1] looks
    like. *)
Definition loop_event {W} (h : Host W) (l : locals) (i n : nat) (ev : event) : Prop :=
  (exists e, ev = EvConsoleLog e)
  \/ exists a j, i <= j < i + n /\ item_event h l a j ev.

(** What the driver keeps to in the calls of a whole run. *)
Definition constructed_with {W} (h : Host W) (l : locals) (ev : event) : Prop :=
  match ev with
  | EvNewN8nBinkAgent _ args =>
      arg_typeAgent args = typeAgent l
      /\ arg_tools args = tools l
      /\ arg_outputParser args = outputParser l
      /\ arg_temperature args = one_half
      /\ arg_systemPrompt args = SYSTEM_MESSAGE h
  | _ => True
  end.

Definition registers_defined (ev : event) : Prop :=
  match ev with
  | EvRegisterPlugin _ p => p <> VUndefined
  | _ => True
  end.

Definition loads_present_memory (ev : event) : Prop :=
  match ev with
  | EvLoadMemoryVariables memory => truthy memory = true
  | _ => True
  end.

Definition executes_defined_input (ev : event) : Prop :=
  match ev with
  | EvExecute _ input _ => input <> VUndefined
  | _ => True
  end.

(** * Properties *)

(** ** Output normalisation *)

Lemma lookup_omit (paths : list string) (o : object) (k : string) :
  omit o paths !! k = if bool_decide (k ∈ paths) then None else o !! k.
Proof.
  unfold omit. revert o.
  induction paths as [|p paths IH]; intros o.
  - by rewrite bool_decide_eq_false_2 by apply not_elem_of_nil.
  - cbn [fold_left]. rewrite IH. rewrite lookup_delete.
    destruct (decide (p = k)) as [->|Hne].
    + rewrite (bool_decide_eq_true_2 (k ∈ k :: paths)) by apply list_elem_of_here.
      by destruct (bool_decide (k ∈ paths)).
    + assert (k ∈ p :: paths <-> k ∈ paths) as Hiff.
      { rewrite elem_of_cons. split; [|by right].
        intros [Heq|Hin]; [by destruct Hne|done]. }
      by rewrite (bool_decide_ext _ _ Hiff).
Qed.

Lemma omit_idempotent (paths : list string) (o : object) :
  omit (omit o paths) paths = omit o paths.
Proof.
  apply map_eq. intros k. rewrite !lookup_omit.
  by destruct (bool_decide (k ∈ paths)).
Qed.

Lemma processItem_normalized {W} (h : Host W) (l : locals) (i : nat) (s : state W)
    (item : node_item) (s' : state W) :
  processItem h l i s = (Ok item, s') -> exists response, item = itemResult response.
Proof.
  unfold processItem, bind, lift, normalize.
  destruct (buildAgent h l i s) as [[am|e] s1]; [|discriminate].
  destruct (runAgent h (fst am) (snd am) i s1) as [[response|e] s2]; [|discriminate].
  destruct (parseOutput (jsonParse h) (outputParser l) response) as [r|e]; [|discriminate].
  intros [= <- <-]. by exists r.
Qed.

(** C1. The item built from a response lacks exactly the five bookkeeping
    fields [system_message], [formatting_instructions], [input],
    [chat_history] and [agent_scratchpad] and agrees with the response on
    every other field; stripping a stripped response changes nothing; and
    every item that an iteration produces, whatever the agent type in the
    driver's locals, has none of the five fields and is left as it is by
    a second stripping. *)
Theorem C1_bookkeeping_stripped {W} (h : Host W) (l : locals) (i : nat) (s : state W)
    (response : object) (k : string) :
  json (itemResult response) !! k
    = (if bool_decide (k ∈ ["system_message"; "formatting_instructions"; "input";
                            "chat_history"; "agent_scratchpad"])
       then None else response !! k)
  /\ itemResult (json (itemResult response)) = itemResult response
  /\ match processItem h l i s with
     | (Ok item, _) =>
         (json item !! "system_message" = None
          /\ json item !! "formatting_instructions" = None
          /\ json item !! "input" = None
          /\ json item !! "chat_history" = None
          /\ json item !! "agent_scratchpad" = None)
         /\ itemResult (json item) = item
     | (Throw _, _) => True
     end.
Proof.
  split; [apply (lookup_omit bookkeeping)|].
  split; [unfold itemResult; cbn [json]; by rewrite omit_idempotent|].
  destruct (processItem h l i s) as [[item|e] s'] eqn:E; [|done].
  apply processItem_normalized in E as [r ->].
  split.
  - cbn [json itemResult]. rewrite !lookup_omit. by repeat split.
  - unfold itemResult; cbn [json]. by rewrite omit_idempotent.
Qed.

(** The parser step when the parse result is an object whose [output] is
    neither null nor undefined. *)
Lemma nullish_present (v w : value) :
  v <> VNull -> v <> VUndefined -> nullish v w = v.
Proof. by destruct v. Qed.

(** C2, as the code has it. With an output parser, [response.output] is
    parsed; a parse result that is an object whose [output] property holds
    a value other than null and undefined replaces [response.output] by
    that value; every other parse result (an object without [output], or
    with a null or undefined [output], or a value that is not an object)
    replaces it by the whole parse result; and when the parser throws,
    the error is the outcome of the normalisation, not an item. *)
Theorem C2_output_unwrapped (jp : value -> outcome value) (parser : value)
    (response : object) (Hparser : truthy parser = true) :
  (forall fields v,
      jp (prop response "output") = Ok (VObject fields) ->
      fields !! "output" = Some v -> v <> VNull -> v <> VUndefined ->
      parseOutput jp parser response = Ok (<["output" := v]> response))
  /\ (forall fields,
      jp (prop response "output") = Ok (VObject fields) ->
      fields !! "output" = None \/ fields !! "output" = Some VNull
        \/ fields !! "output" = Some VUndefined ->
      parseOutput jp parser response = Ok (<["output" := VObject fields]> response))
  /\ (forall parsed,
      jp (prop response "output") = Ok parsed ->
      (forall fields, parsed <> VObject fields) ->
      parseOutput jp parser response = Ok (<["output" := parsed]> response))
  /\ (forall e,
      jp (prop response "output") = Throw e ->
      parseOutput jp parser response = Throw e
      /\ normalize jp parser response = Throw e).
Proof.
  unfold normalize, parseOutput. rewrite Hparser.
  repeat split.
  - intros fields v -> Hv Hnull Hundef. cbn [optional_output]. unfold prop.
    rewrite Hv. cbn [default]. by rewrite nullish_present.
  - intros fields -> Hv. cbn [optional_output]. unfold prop.
    destruct Hv as [-> | [-> | ->]]; done.
  - intros parsed -> Hno.
    destruct parsed; try done. by destruct (Hno fields).
  - by rewrite H.
  - by rewrite H.
Qed.

Lemma C2_output_unwrapped_witness :
  parseOutput Sample.parse (VObject ∅) {[ "output" := VString Sample.wrappedText ]}
    = Ok (<["output" := Sample.payload]> {[ "output" := VString Sample.wrappedText ]})
  /\ parseOutput Sample.parse (VObject ∅) {[ "output" := VString Sample.bareText ]}
    = Ok (<["output" := Sample.payload]> {[ "output" := VString Sample.bareText ]})
  /\ normalize Sample.parse (VObject ∅) {[ "output" := VString "12.5 BNB" ]}
    = Throw Sample.syntaxError.
Proof.
  split; [|split].
  - apply (proj1 (C2_output_unwrapped Sample.parse (VObject ∅)
                    {[ "output" := VString Sample.wrappedText ]} eq_refl)
             {[ "output" := Sample.payload ]} Sample.payload);
      [reflexivity | reflexivity | discriminate | discriminate].
  - apply (proj1 (proj2 (C2_output_unwrapped Sample.parse (VObject ∅)
                    {[ "output" := VString Sample.bareText ]} eq_refl))
             {[ "a" := VNumber Sample.one ]});
      [reflexivity | left; reflexivity].
  - apply (proj2 (proj2 (proj2 (C2_output_unwrapped Sample.parse (VObject ∅)
                    {[ "output" := VString "12.5 BNB" ]} eq_refl))) Sample.syntaxError).
    reflexivity.
Defined.

(** C2 as stated fails: the parse result of [{"output":null}] contains an
    [output] key, yet [response.output] becomes the whole parse result and
    not that key's value. *)
Lemma C2_counterexample_null_output :
  Sample.parse (prop {[ "output" := VString Sample.nullText ]} "output")
    = Ok (VObject {[ "output" := VNull ]})
  /\ ({[ "output" := VNull ]} : object) !! "output" = Some VNull
  /\ parseOutput Sample.parse (VObject ∅) {[ "output" := VString Sample.nullText ]}
      = Ok {[ "output" := VObject {[ "output" := VNull ]} ]}
  /\ parseOutput Sample.parse (VObject ∅) {[ "output" := VString Sample.nullText ]}
      <> Ok (<["output" := VNull]> {[ "output" := VString Sample.nullText ]}).
Proof.
  split; [reflexivity|]. split; [reflexivity|]. split; [reflexivity|].
  intros Heq.
  apply (f_equal (fun r => match r with Ok o => o !! "output" | Throw _ => None end)) in Heq.
  vm_compute in Heq. discriminate Heq.
Qed.

(** ** Tool discovery *)

Lemma collect_spec (tws : list tool_with_plugin) (ts ps : list value) :
  collect tws ts ps = (ts ++ map tool tws, ps ++ map plugin tws).
Proof.
  revert ts ps. induction tws as [|t tws IH]; intros ts ps; cbn [collect map].
  - by rewrite !app_nil_r.
  - rewrite IH. by rewrite <- !app_assoc.
Qed.

Lemma compact_spec (tws : list tool_with_plugin) :
  compact (map plugin tws) = spec_plugins tws.
Proof.
  unfold compact, spec_plugins.
  induction tws as [|t tws IH]; [done|].
  cbn [map List.filter omap list_omap]. rewrite IH.
  unfold spec_handle. by destruct (plugin t).
Qed.

Lemma elem_of_compact (ps : list value) (p : value) :
  p ∈ compact ps <-> p ∈ ps /\ p <> VUndefined.
Proof.
  unfold compact. rewrite !list_elem_of_In, filter_In.
  split; intros [Hin Hp]; split; try done.
  - by intros ->.
  - by destruct p.
Qed.

Lemma compact_sublist (ps : list value) : compact ps `sublist_of` ps.
Proof.
  unfold compact. induction ps as [|p ps IH]; [constructor|].
  cbn [List.filter]. destruct (not_undefined p); by constructor.
Qed.

(** C4. The [tools] array is the tool of every discovered pair, in
    discovery order; the [plugins] array is the handles that are present,
    in discovery order and as often as they occur, the absent ones having
    been dropped: it is the compaction of the optional handles, it has no
    undefined element, and it is a subsequence of the discovered handles. *)
Theorem C4_registry_views (toolsWithPlugins : list tool_with_plugin) :
  discovered toolsWithPlugins = (spec_tools toolsWithPlugins, spec_plugins toolsWithPlugins)
  /\ Forall (fun p => p <> VUndefined) (snd (discovered toolsWithPlugins))
  /\ snd (discovered toolsWithPlugins) `sublist_of` map plugin toolsWithPlugins.
Proof.
  unfold discovered. rewrite collect_spec. cbn [fst snd app].
  split; [by rewrite compact_spec|].
  split.
  - apply Forall_forall. intros p Hp. by apply elem_of_compact in Hp as [_ Hp].
  - apply compact_sublist.
Qed.

(** ** Traces of the driver *)

Lemma agent_calls_app (a : nat) (t1 t2 : list event) :
  agent_calls a (t1 ++ t2) = agent_calls a t1 ++ agent_calls a t2.
Proof.
  induction t1 as [|ev t1 IH]; [done|].
  destruct ev; cbn [app agent_calls]; rewrite ?IH; try done;
    by destruct (Nat.eqb a instance).
Qed.

Lemma agent_calls_register (a b : nat) (ps : list value) :
  agent_calls a (map (EvRegisterPlugin b) ps)
    = if Nat.eqb a b then map CallRegisterPlugin ps else [].
Proof.
  induction ps as [|p ps IH]; cbn [map agent_calls].
  - by destruct (Nat.eqb a b).
  - rewrite IH. by destruct (Nat.eqb a b).
Qed.

Lemma execute_in_agent_calls (a : nat) (input : value) (hist : option value)
    (t : list event) :
  EvExecute a input hist ∈ t -> CallExecute ∈ agent_calls a t.
Proof.
  induction t as [|ev t IH]; intros Hin; [by apply elem_of_nil in Hin|].
  apply elem_of_cons in Hin as [<- | Hin].
  - cbn [agent_calls]. rewrite Nat.eqb_refl. apply list_elem_of_here.
  - specialize (IH Hin).
    destruct ev; cbn [agent_calls]; try done;
      destruct (Nat.eqb a instance); try done; by apply list_elem_of_further.
Qed.

Lemma register_in_trace (a : nat) (p : value) (t : list event) :
  CallRegisterPlugin p ∈ agent_calls a t -> EvRegisterPlugin a p ∈ t.
Proof.
  induction t as [|ev t IH]; cbn [agent_calls]; intros Hin; [by apply elem_of_nil in Hin|].
  destruct ev; try (apply list_elem_of_further; by apply IH).
  - destruct (Nat.eqb a instance) eqn:E.
    + apply elem_of_cons in Hin as [Heq | Hin]; [discriminate Heq|].
      apply list_elem_of_further; by apply IH.
    + apply list_elem_of_further; by apply IH.
  - destruct (Nat.eqb a instance) eqn:E.
    + apply Nat.eqb_eq in E as <-.
      apply elem_of_cons in Hin as [[= <-] | Hin]; [apply list_elem_of_here|].
      apply list_elem_of_further; by apply IH.
    + apply list_elem_of_further; by apply IH.
  - destruct (Nat.eqb a instance) eqn:E.
    + apply elem_of_cons in Hin as [Heq | Hin]; [discriminate Heq|].
      apply list_elem_of_further; by apply IH.
    + apply list_elem_of_further; by apply IH.
Qed.

Section DriverProperties.
Context {W : Type} (h : Host W).

Lemma registerPlugins_spec (a : nat) (ps : list value) (s : state W) :
  exists k,
    trace (snd (registerPlugins h a ps s))
      = trace s ++ map (EvRegisterPlugin a) (take k ps)
    /\ next_instance (snd (registerPlugins h a ps s)) = next_instance s
    /\ (forall u, fst (registerPlugins h a ps s) = Ok u -> take k ps = ps).
Proof.
  revert s. induction ps as [|p ps IH]; intros s.
  - exists 0. cbn. by rewrite app_nil_r.
  - cbn [registerPlugins]. unfold bind, call.
    destruct (registerPlugin h a p (world s)) as [[[]|e] w].
    + match goal with
      | |- context [registerPlugins h a ps ?s1] =>
          destruct (IH s1) as (k & Ht & Hn & Hok)
      end.
      exists (S k). rewrite Ht, Hn. cbn [trace next_instance take map].
      split; [by rewrite <- app_assoc|]. split; [done|].
      intros u Hu. by rewrite (Hok u Hu).
    + exists 1. cbn [snd fst trace next_instance take map]. by rewrite take_0.
Qed.

(** A call that fails before the agent is constructed. *)
Ltac early_throw :=
  eexists; split; [cbn [snd trace]; rewrite <- ?app_assoc; reflexivity|];
  split; [repeat constructor|];
  split; [reflexivity|];
  left; cbn [fst snd next_instance]; eauto.

Lemma buildAgent_spec (l : locals) (i : nat) (s : state W) :
  exists evs,
    trace (snd (buildAgent h l i s)) = trace s ++ evs
    /\ Forall (wallet_ok l) evs
    /\ (forall a, a <> next_instance s -> agent_calls a evs = [])
    /\ ((agent_calls (next_instance s) evs = []
         /\ next_instance (snd (buildAgent h l i s)) = next_instance s
         /\ exists e, fst (buildAgent h l i s) = Throw e)
        \/ (exists k net,
              agent_calls (next_instance s) evs
                = CallNew :: map CallRegisterPlugin (take k (plugins l))
              /\ next_instance (snd (buildAgent h l i s)) = S (next_instance s)
              /\ EvNewWallet (seedPhrase (baseCredentials l)) 0 net ∈ evs
              /\ ((exists e, fst (buildAgent h l i s) = Throw e)
                  \/ (take k (plugins l) = plugins l
                      /\ exists memory,
                          fst (buildAgent h l i s) = Ok (next_instance s, memory))))).
Proof.
  unfold buildAgent, newAgent, alloc, bind, call, ret.
  cbn [world next_instance trace].
  destruct (getChatModel h (world s)) as [[model|e] w1]; cbn [world next_instance trace]; [|early_throw].
  destruct (newN8nLLM h model w1) as [[llm|e] w2]; cbn [world next_instance trace]; [|early_throw].
  destruct (getOptionalMemory h w2) as [[memory|e] w3]; cbn [world next_instance trace]; [|early_throw].
  destruct (getNodeParameterOptions h i w3) as [[n8nOptions|e] w4]; cbn [world next_instance trace]; [|early_throw].
  destruct (getNetworksConfig h (RPC_URLS l) w4) as [[networks|e] w5]; cbn [world next_instance trace]; [|early_throw].
  destruct (newNetwork h networks w5) as [[network|e] w6]; cbn [world next_instance trace]; [|early_throw].
  destruct (newWallet h (seedPhrase (baseCredentials l)) 0 network w6)
    as [[wallet|e] w7]; cbn [world next_instance trace]; [|early_throw].
  match goal with
  | |- context [newN8nBinkAgent h (next_instance s) ?args w7] =>
      destruct (newN8nBinkAgent h (next_instance s) args w7) as [[[]|e] w8]
  end; cbn [world next_instance trace].
  - match goal with
    | |- context [registerPlugins h ?a ?ps ?s1] =>
        destruct (registerPlugins_spec a ps s1) as (k & Ht & Hn & Hok);
        destruct (registerPlugins h a ps s1) as [[[]|e] s9]
    end; cbn [fst snd trace next_instance] in *;
      (eexists; split; [rewrite Ht; rewrite <- ?app_assoc; reflexivity|]);
      (split; [rewrite !Forall_app; repeat split; try (repeat constructor; fail);
               apply Forall_forall; intros ev Hev;
               apply list_elem_of_fmap in Hev as (p & -> & _); exact I|]);
      (split; [intros a Ha; rewrite !agent_calls_app, agent_calls_register;
               cbn [agent_calls app]; apply Nat.eqb_neq in Ha; by rewrite Ha|]);
      right; exists k, network;
      (split; [rewrite !agent_calls_app, agent_calls_register;
               cbn [agent_calls app]; by rewrite Nat.eqb_refl|]);
      (split; [done|]);
      (split; [rewrite !elem_of_app; do 6 right; left; apply list_elem_of_here|]).
    + right. split; [by apply (Hok tt)|]. by exists memory.
    + left. by exists e.
  - eexists; split; [cbn [snd trace]; rewrite <- ?app_assoc; reflexivity|].
    split; [repeat constructor|].
    split; [intros a Ha; cbn [agent_calls app]; apply Nat.eqb_neq in Ha; by rewrite Ha|].
    right. exists 0, network. rewrite take_0. cbn [agent_calls app map fst snd next_instance].
    rewrite Nat.eqb_refl.
    split; [done|]. split; [done|].
    split; [|left; by exists e].
    do 6 apply list_elem_of_further. apply list_elem_of_here.
Qed.

Lemma runAgent_spec (a : nat) (memory : value) (i : nat) (s : state W) :
  exists evs,
    trace (snd (runAgent h a memory i s)) = trace s ++ evs
    /\ next_instance (snd (runAgent h a memory i s)) = next_instance s
    /\ (forall l, Forall (wallet_ok l) evs)
    /\ (forall b, b <> a -> agent_calls b evs = [])
    /\ ((agent_calls a evs = [] /\ exists e, fst (runAgent h a memory i s) = Throw e)
        \/ agent_calls a evs = [CallExecute]).
Proof.
  unfold runAgent, bind, call, throw.
  destruct (getPromptInputByType h i (world s)) as [[input|e] w1];
    cbn [world next_instance trace].
  - destruct (not_undefined input); [destruct (truthy memory)|];
      cbn [world next_instance trace].
    + destruct (loadMemoryVariables h memory w1) as [[chatHistory|e] w2];
        cbn [world next_instance trace].
      * destruct (agentExecute h a input (Some chatHistory) w2) as [r w3].
        eexists; split; [cbn [snd trace]; rewrite <- ?app_assoc; reflexivity|].
        split; [done|]. split; [intros l; repeat constructor|].
        cbn [agent_calls app].
        split; [intros b Hb; apply Nat.eqb_neq in Hb; by rewrite Hb|].
        right. by rewrite Nat.eqb_refl.
      * eexists; split; [cbn [snd trace]; rewrite <- ?app_assoc; reflexivity|].
        split; [done|]. split; [intros l; repeat constructor|].
        split; [done|]. left. split; [done|]. by exists e.
    + destruct (agentExecute h a input None w1) as [r w3].
      eexists; split; [cbn [snd trace]; rewrite <- ?app_assoc; reflexivity|].
      split; [done|]. split; [intros l; repeat constructor|].
      cbn [agent_calls app].
      split; [intros b Hb; apply Nat.eqb_neq in Hb; by rewrite Hb|].
      right. by rewrite Nat.eqb_refl.
    + eexists; split; [cbn [snd trace]; reflexivity|].
      split; [done|]. split; [intros l; repeat constructor|].
      split; [done|]. left. split; [done|]. by exists textParameterEmpty.
  - eexists; split; [cbn [snd trace]; reflexivity|].
    split; [done|]. split; [intros l; repeat constructor|].
    split; [done|]. left. split; [done|]. by exists e.
Qed.

Lemma lifecycle_prefix_registered (ps : list value) (k : nat) :
  CallNew :: map CallRegisterPlugin (take k ps) `prefix_of` lifecycle ps.
Proof.
  exists (map CallRegisterPlugin (drop k ps) ++ [CallExecute]).
  unfold lifecycle. cbn [app]. f_equal.
  rewrite app_assoc, <- map_app. by rewrite take_drop.
Qed.

Lemma processItem_spec (l : locals) (i : nat) (s : state W) :
  exists evs,
    trace (snd (processItem h l i s)) = trace s ++ evs
    /\ Forall (wallet_ok l) evs
    /\ (forall a, a <> next_instance s -> agent_calls a evs = [])
    /\ agent_calls (next_instance s) evs `prefix_of` lifecycle (plugins l)
    /\ ((agent_calls (next_instance s) evs = []
         /\ next_instance (snd (processItem h l i s)) = next_instance s)
        \/ next_instance (snd (processItem h l i s)) = S (next_instance s))
    /\ (forall item, fst (processItem h l i s) = Ok item ->
          agent_calls (next_instance s) evs = lifecycle (plugins l)
          /\ next_instance (snd (processItem h l i s)) = S (next_instance s)
          /\ exists net, EvNewWallet (seedPhrase (baseCredentials l)) 0 net ∈ evs).
Proof.
  unfold processItem, bind, lift.
  destruct (buildAgent_spec l i s) as (evs1 & Ht1 & Hw1 & Hother1 & Hcases).
  destruct (buildAgent h l i s) as [[[a memory]|e] s1]; cbn [fst snd] in *.
  - destruct Hcases as [(_ & _ & e & He) | (k & net & Hcalls & Hnext & Hwallet & Hres)];
      [discriminate He|].
    destruct Hres as [[e He] | (Hfull & memory' & Heq)]; [discriminate He|].
    injection Heq as Ha Hm. subst a memory'.
    rewrite Hfull in Hcalls.
    destruct (runAgent_spec (next_instance s) memory i s1)
      as (evs2 & Ht2 & Hn2 & Hw2 & Hother2 & Hexec).
    destruct (runAgent h (next_instance s) memory i s1) as [[response|e] s2];
      cbn [fst snd] in *.
    + destruct Hexec as [(_ & e & He) | Hexec]; [discriminate He|].
      assert (agent_calls (next_instance s) (evs1 ++ evs2) = lifecycle (plugins l)) as Hall.
      { rewrite agent_calls_app, Hcalls, Hexec. done. }
      exists (evs1 ++ evs2).
      assert (trace s2 = trace s ++ evs1 ++ evs2) as Ht by (by rewrite Ht2, Ht1, app_assoc).
      assert (next_instance s2 = S (next_instance s)) as Hn by congruence.
      assert (forall b, b <> next_instance s -> agent_calls b (evs1 ++ evs2) = []) as Hothers.
      { intros b Hb. by rewrite agent_calls_app, Hother1, Hother2. }
      assert (Forall (wallet_ok l) (evs1 ++ evs2)) as Hw by (apply Forall_app; split; auto).
      destruct (normalize (jsonParse h) (outputParser l) response) as [item|e];
        cbn [fst snd]; (split; [done|]); (split; [done|]); (split; [done|]);
        (split; [by rewrite Hall|]); (split; [by right|]).
      * intros item' _. split; [done|]. split; [done|].
        exists net. apply elem_of_app. by left.
      * intros item' Hitem. discriminate Hitem.
    + exists (evs1 ++ evs2).
      split; [by rewrite Ht2, Ht1, app_assoc|].
      split; [apply Forall_app; split; auto|].
      split; [intros b Hb; by rewrite agent_calls_app, Hother1, Hother2|].
      split.
      { rewrite agent_calls_app, Hcalls.
        destruct Hexec as [(-> & _) | ->].
        - rewrite app_nil_r. exists [CallExecute]. done.
        - done. }
      split; [right; congruence|].
      intros item Hitem. discriminate Hitem.
  - exists evs1. split; [done|]. split; [done|]. split; [done|].
    destruct Hcases as [(Hcalls & Hnext & _) | (k & net & Hcalls & Hnext & _ & _)].
    + rewrite Hcalls. split; [apply prefix_nil|]. split; [by left|].
      intros item Hitem. discriminate Hitem.
    + rewrite Hcalls. split; [apply lifecycle_prefix_registered|]. split; [by right|].
      intros item Hitem. discriminate Hitem.
Qed.

Lemma logged_sequenced (l : locals) (e : value) (s : state W) :
  sequenced l s -> sequenced l (logged e s).
Proof.
  intros [Hfresh Hpre]. split.
  - intros a Ha. cbn [logged trace]. rewrite agent_calls_app, (Hfresh a Ha). done.
  - intros a. cbn [logged trace]. rewrite agent_calls_app. cbn [agent_calls].
    by rewrite app_nil_r.
Qed.

Lemma processItem_sequenced (l : locals) (i : nat) (s : state W) :
  sequenced l s -> sequenced l (snd (processItem h l i s)).
Proof.
  intros [Hfresh Hpre].
  destruct (processItem_spec l i s) as (evs & Ht & _ & Hother & Hmine & Hnext & _).
  split.
  - intros a Ha. rewrite Ht, agent_calls_app.
    destruct Hnext as [[Hnone Hn] | Hn]; rewrite Hn in Ha.
    + rewrite (Hfresh a Ha).
      destruct (decide (a = next_instance s)) as [-> | Hne]; [done|].
      by rewrite Hother.
    + rewrite (Hfresh a) by lia. rewrite Hother by lia. done.
  - intros a. rewrite Ht, agent_calls_app.
    destruct (decide (a = next_instance s)) as [-> | Hne].
    + by rewrite (Hfresh (next_instance s)) by lia.
    + rewrite Hother by done. by rewrite app_nil_r.
Qed.

Lemma tryItem_sequenced (l : locals) (rd : list node_item) (i : nat) (s : state W) :
  sequenced l s -> sequenced l (snd (tryItem h l rd i s)).
Proof.
  intros Hs. pose proof (processItem_sequenced l i s Hs) as Hs'.
  unfold tryItem, try_catch, bind, ret, handleError.
  destruct (processItem h l i s) as [[item|e] s1]; cbn [fst snd] in *; [done|].
  destruct (continueOnFail h (world (logged e s1))); [destruct (errorItem e i)|];
    by apply logged_sequenced.
Qed.

Lemma loop_sequenced (l : locals) (remaining i : nat) (rd : list node_item) (s : state W) :
  sequenced l s -> sequenced l (snd (loop h l remaining i rd s)).
Proof.
  revert i rd s. induction remaining as [|n IH]; intros i rd s Hs; [done|].
  cbn [loop]. unfold bind.
  pose proof (tryItem_sequenced l rd i s Hs) as Hs'.
  destruct (tryItem h l rd i s) as [[rd'|e] s1]; cbn [fst snd] in *; [|done].
  by apply IH.
Qed.

Lemma prepare_spec (s : state W) :
  exists evs,
    trace (snd (prepare h s)) = trace s ++ evs
    /\ next_instance (snd (prepare h s)) = next_instance s
    /\ forall a, agent_calls a evs = [].
Proof.
  unfold prepare, bind, call, ret.
  destruct (getNodeParameterAgent h (world s)) as [[typeAgent|e] w1];
    cbn [world next_instance trace];
    [|eexists; split; [cbn [snd trace]; rewrite <- ?app_assoc; reflexivity|done]].
  destruct (getInputData h w1) as [[items|e] w2];
    cbn [world next_instance trace];
    [|eexists; split; [cbn [snd trace]; rewrite <- ?app_assoc; reflexivity|done]].
  destruct (getOptionalOutputParser h w2) as [[parser|e] w3];
    cbn [world next_instance trace];
    [|eexists; split; [cbn [snd trace]; rewrite <- ?app_assoc; reflexivity|done]].
  destruct (getTools h w3) as [[tws|e] w4];
    cbn [world next_instance trace];
    [|eexists; split; [cbn [snd trace]; rewrite <- ?app_assoc; reflexivity|done]].
  destruct (getCredentials h w4) as [[creds|e] w5];
    cbn [world next_instance trace];
    eexists; (split; [cbn [snd trace]; rewrite <- ?app_assoc; reflexivity|done]).
Qed.

Lemma no_execute_in_registration (ps : list value) :
  CallExecute ∉ CallNew :: map CallRegisterPlugin ps.
Proof.
  intros Hin. apply elem_of_cons in Hin as [Heq | Hin]; [discriminate Heq|].
  apply list_elem_of_fmap in Hin as (p & Heq & _). discriminate Heq.
Qed.

Lemma lifecycle_complete (ps : list value) (cs : list agent_call) :
  cs `prefix_of` lifecycle ps -> CallExecute ∈ cs -> cs = lifecycle ps.
Proof.
  intros [rest Hrest] Hin.
  destruct rest as [|c rest _] using rev_ind; [by rewrite app_nil_r in Hrest|].
  exfalso. unfold lifecycle in Hrest.
  rewrite app_assoc, app_comm_cons in Hrest.
  apply app_inj_tail in Hrest as [Hrest _].
  apply (no_execute_in_registration ps). rewrite Hrest.
  apply elem_of_app. by left.
Qed.

Lemma loop_app (l : locals) (k m i : nat) (rd : list node_item) (s : state W) :
  loop h l (k + m) i rd s
    = (let* rd' := loop h l k i rd in loop h l m (i + k) rd') s.
Proof.
  revert i rd s. induction k as [|k IH]; intros i rd s.
  - cbn [loop Nat.add]. unfold bind, ret. by rewrite Nat.add_0_r.
  - cbn [loop Nat.add]. unfold bind.
    destruct (tryItem h l rd i s) as [[rd'|e] s1]; [|done].
    rewrite IH. unfold bind. by rewrite Nat.add_succ_r.
Qed.

Lemma runAgent_reaches (a : nat) (memory : value) (i : nat) (s : state W)
    (input : value) (w1 : W) :
  getPromptInputByType h i (world s) = (Ok input, w1) ->
  input <> VUndefined ->
  (truthy memory = true ->
     exists chatHistory w2, loadMemoryVariables h memory w1 = (Ok chatHistory, w2)) ->
  exists evs,
    trace (snd (runAgent h a memory i s)) = trace s ++ evs
    /\ agent_calls a evs = [CallExecute]
    /\ forall b, b <> a -> agent_calls b evs = [].
Proof.
  intros Hinput Hdef Hload.
  assert (not_undefined input = true) as Hnu by (by destruct input).
  unfold runAgent, bind, call. rewrite Hinput, Hnu.
  destruct (truthy memory); cbn [world next_instance trace].
  - destruct (Hload eq_refl) as (chatHistory & w2 & ->). cbn [world next_instance trace].
    destruct (agentExecute h a input (Some chatHistory) w2) as [r w3].
    eexists; split; [cbn [snd trace]; rewrite <- ?app_assoc; reflexivity|].
    cbn [agent_calls app]. rewrite Nat.eqb_refl. split; [done|].
    intros b Hb. apply Nat.eqb_neq in Hb. by rewrite Hb.
  - destruct (agentExecute h a input None w1) as [r w3].
    eexists; split; [cbn [snd trace]; rewrite <- ?app_assoc; reflexivity|].
    cbn [agent_calls app]. rewrite Nat.eqb_refl. split; [done|].
    intros b Hb. apply Nat.eqb_neq in Hb. by rewrite Hb.
Qed.

Lemma loop_trace (l : locals) (n i : nat) (rd : list node_item) (s : state W) :
  exists evs, trace (snd (loop h l n i rd s)) = trace s ++ evs.
Proof.
  revert i rd s. induction n as [|n IH]; intros i rd s.
  - exists []. by rewrite app_nil_r.
  - cbn [loop]. unfold bind, tryItem, try_catch, bind, ret, handleError.
    destruct (processItem_spec l i s) as (evs & Ht & _).
    destruct (processItem h l i s) as [[item|e] s1]; cbn [fst snd] in *.
    + destruct (IH (S i) (rd ++ [item]) s1) as (evs' & Ht').
      exists (evs ++ evs'). by rewrite Ht', Ht, app_assoc.
    + destruct (continueOnFail h (world (logged e s1)));
        [destruct (errorItem e i) as [item|typeError]|].
      * destruct (IH (S i) (rd ++ [item]) (logged e s1)) as (evs' & Ht').
        exists (evs ++ EvConsoleLog e :: evs'). rewrite Ht'. cbn [logged trace].
        by rewrite Ht, <- !app_assoc.
      * exists (evs ++ [EvConsoleLog e]). cbn [snd logged trace]. by rewrite Ht, app_assoc.
      * exists (evs ++ [EvConsoleLog e]). cbn [snd logged trace]. by rewrite Ht, app_assoc.
Qed.

Lemma loop_runs_item (l : locals) (n i : nat) (rd : list node_item) (s : state W) :
  exists rest,
    trace (snd (loop h l (S n) i rd s)) = trace (snd (processItem h l i s)) ++ rest.
Proof.
  cbn [loop]. unfold bind, tryItem, try_catch, bind, ret, handleError.
  destruct (processItem h l i s) as [[item|e] s1]; cbn [fst snd].
  - apply loop_trace.
  - destruct (continueOnFail h (world (logged e s1)));
      [destruct (errorItem e i) as [item|typeError]|].
    + destruct (loop_trace l n (S i) (rd ++ [item]) (logged e s1)) as (evs & Ht).
      exists (EvConsoleLog e :: evs). rewrite Ht. cbn [logged trace].
      by rewrite <- app_assoc.
    + by exists [EvConsoleLog e].
    + by exists [EvConsoleLog e].
Qed.

(** C6, as the code has it. Item [k] of a batch is processed once the
    items before it have been dealt with, by an iteration that touches one
    instance only, the new one: its calls on it are an initial part of
    the lifecycle [new], [registerPlugin] for each plugin of the compacted
    list in order, [execute], and the whole lifecycle as soon as [execute]
    is among them. When the iteration gets as far as line 351 or 353 (the
    agent is built, the prompt input is there and defined, the memory, if
    any, has loaded) the calls are the whole lifecycle: [execute] is
    called on the new instance exactly once, after every registration.
    Over a whole run the calls on every instance are an initial part of
    the lifecycle, so that no instance is executed a second time. *)
Theorem C6_one_instance_per_item (l : locals) (k n : nat) (s0 s : state W)
    (rd : list node_item) (w : W) (m : nat) :
  (loop h l k 0 [] s0 = (Ok rd, s) ->
   exists rest,
     trace (snd (loop h l (k + S n) 0 [] s0))
       = trace (snd (processItem h l k s)) ++ rest)
  /\ (exists evs,
        trace (snd (processItem h l k s)) = trace s ++ evs
        /\ (forall b, b <> next_instance s -> agent_calls b evs = [])
        /\ agent_calls (next_instance s) evs `prefix_of` lifecycle (plugins l)
        /\ (CallExecute ∈ agent_calls (next_instance s) evs ->
            agent_calls (next_instance s) evs = lifecycle (plugins l)))
  /\ (forall a memory s1 input w2,
        buildAgent h l k s = (Ok (a, memory), s1) ->
        getPromptInputByType h k (world s1) = (Ok input, w2) ->
        input <> VUndefined ->
        (truthy memory = true ->
           exists chatHistory w3,
             loadMemoryVariables h memory w2 = (Ok chatHistory, w3)) ->
        a = next_instance s
        /\ exists evs,
            trace (snd (processItem h l k s)) = trace s ++ evs
            /\ agent_calls (next_instance s) evs = lifecycle (plugins l)
            /\ forall b, b <> next_instance s -> agent_calls b evs = [])
  /\ match fst (prepare h (MkState w m [])) with
     | Ok (l0, _) =>
         forall a,
           agent_calls a (trace (snd (execute h (MkState w m []))))
             `prefix_of` lifecycle (plugins l0)
           /\ (CallExecute ∈ agent_calls a (trace (snd (execute h (MkState w m [])))) ->
               agent_calls a (trace (snd (execute h (MkState w m []))))
                 = lifecycle (plugins l0))
     | Throw _ =>
         forall a, agent_calls a (trace (snd (execute h (MkState w m [])))) = []
     end.
Proof.
  split; [|split; [|split]].
  - intros Hbefore. rewrite loop_app. unfold bind at 1. rewrite Hbefore. cbn [Nat.add].
    apply loop_runs_item.
  - destruct (processItem_spec l k s) as (evs & Ht & _ & Hother & Hprefix & _).
    exists evs. split; [done|]. split; [done|]. split; [done|].
    by apply lifecycle_complete.
  - intros a memory s1 input w2 Hbuild Hinput Hdef Hload.
    destruct (buildAgent_spec l k s) as (evs1 & Ht1 & _ & Hother1 & Hcases).
    rewrite Hbuild in *. cbn [fst snd] in *.
    destruct Hcases as [(_ & _ & e & He) | (j & net & Hcalls & _ & _ & Hres)];
      [discriminate He|].
    destruct Hres as [[e He] | (Hfull & memory' & Heq)]; [discriminate He|].
    injection Heq as Ha Hm. subst a memory'. split; [done|].
    destruct (runAgent_reaches (next_instance s) memory k s1 input w2 Hinput Hdef Hload)
      as (evs2 & Ht2 & Hexec & Hother2).
    exists (evs1 ++ evs2). split; [|split].
    + unfold processItem, bind, lift. rewrite Hbuild. cbn [fst snd].
      destruct (runAgent h (next_instance s) memory k s1) as [[response|e] s2];
        cbn [fst snd] in *.
      * destruct (normalize (jsonParse h) (outputParser l) response);
          cbn [snd]; by rewrite Ht2, Ht1, app_assoc.
      * by rewrite Ht2, Ht1, app_assoc.
    + rewrite agent_calls_app, Hcalls, Hfull, Hexec. done.
    + intros b Hb. by rewrite agent_calls_app, Hother1, Hother2.
  - unfold execute, bind, ret.
    destruct (prepare_spec (MkState w m [])) as (evs & Ht & Hn & Hquiet).
    destruct (prepare h (MkState w m [])) as [[[l0 count]|e] s1]; cbn [fst snd] in *.
    + assert (sequenced l0 s1) as Hs1.
      { split.
        - intros a _. by rewrite Ht, Hquiet.
        - intros a. rewrite Ht, Hquiet. apply prefix_nil. }
      pose proof (loop_sequenced l0 count 0 [] s1 Hs1) as [_ Hpre].
      intros a. specialize (Hpre a).
      destruct (loop h l0 count 0 [] s1) as [[rd'|e] s2]; cbn [fst snd] in *;
        (split; [done|by apply lifecycle_complete]).
    + intros a. by rewrite Ht, Hquiet.
Qed.

Lemma js_or_falsy (a b : value) : truthy a = false -> js_or a b = b.
Proof. unfold js_or. by intros ->. Qed.

(** C5. When the credentials carry no mnemonic (none at all, or one that
    is undefined, null or the empty string), the seed phrase is the fixed
    placeholder, by a computation that cannot fail; when they carry a
    non-empty mnemonic, the seed phrase is that mnemonic; and every wallet
    an iteration constructs is constructed with this seed phrase and index
    0, an iteration that produces its item having constructed one. *)
Theorem C5_wallet_seed (l : locals) (i : nat) (s : state W) :
  (baseCredentials l !! "mnemonic" = None ->
     seedPhrase (baseCredentials l) = VString placeholderSeed)
  /\ (forall m, baseCredentials l !! "mnemonic" = Some m -> truthy m = false ->
       seedPhrase (baseCredentials l) = VString placeholderSeed)
  /\ (forall m, baseCredentials l !! "mnemonic" = Some (VString m) -> m <> "" ->
       seedPhrase (baseCredentials l) = VString m)
  /\ exists evs,
       trace (snd (processItem h l i s)) = trace s ++ evs
       /\ Forall (wallet_ok l) evs
       /\ (forall item, fst (processItem h l i s) = Ok item ->
            exists net, EvNewWallet (seedPhrase (baseCredentials l)) 0 net ∈ evs).
Proof.
  unfold seedPhrase, prop. repeat split.
  - by intros ->.
  - intros m -> Hm. by apply js_or_falsy.
  - intros m -> Hm. unfold js_or.
    change (default VUndefined (Some (VString m))) with (VString m). cbn [truthy].
    destruct (String.eqb m "") eqn:E; [|done].
    apply String.eqb_eq in E. by destruct Hm.
  - destruct (processItem_spec l i s) as (evs & Ht & Hw & _ & _ & _ & Hok).
    exists evs. split; [done|]. split; [done|].
    intros item Hitem. by destruct (Hok item Hitem) as (_ & _ & Hnet).
Qed.

(** C7. Once the prompt input is there and defined: with a memory, the
    driver calls [loadMemoryVariables] on it and what remains of the step
    is the call of [execute] with the input and the loaded state as second
    argument (if the load throws, [execute] is not called); without a
    memory, what remains is the call of [execute] with the input alone. *)
Theorem C7_memory_passed_to_execute (a : nat) (memory : value) (i : nat) (s : state W)
    (input : value) (w1 : W) :
  getPromptInputByType h i (world s) = (Ok input, w1) ->
  input <> VUndefined ->
  let s1 := MkState w1 (next_instance s) (trace s ++ [EvGetPromptInputByType i]) in
  (truthy memory = true ->
     match loadMemoryVariables h memory w1 with
     | (Ok chatHistory, w2) =>
         runAgent h a memory i s
           = call (EvExecute a input (Some chatHistory))
                  (agentExecute h a input (Some chatHistory))
                  (MkState w2 (next_instance s) (trace s1 ++ [EvLoadMemoryVariables memory]))
     | (Throw e, w2) =>
         runAgent h a memory i s
           = (Throw e,
              MkState w2 (next_instance s) (trace s1 ++ [EvLoadMemoryVariables memory]))
     end)
  /\ (truthy memory = false ->
       runAgent h a memory i s
         = call (EvExecute a input None) (agentExecute h a input None) s1).
Proof.
  intros Hinput Hdef s1.
  assert (not_undefined input = true) as Hnu by (by destruct input).
  split; intros Hmem.
  - destruct (loadMemoryVariables h memory w1) as [[chatHistory|e] w2] eqn:Hload;
      unfold runAgent, bind, call; rewrite Hinput, Hnu, Hmem;
      cbn [world next_instance trace]; by rewrite Hload.
  - unfold runAgent, bind, call. by rewrite Hinput, Hnu, Hmem.
Qed.

Lemma tryItem_failure (l : locals) (rd : list node_item) (i : nat) (s : state W)
    (e : value) (s' : state W) :
  processItem h l i s = (Throw e, s') ->
  tryItem h l rd i s
    = (if continueOnFail h (world s')
       then match errorItem e i with
            | Ok item => (Ok (rd ++ [item]), logged e s')
            | Throw typeError => (Throw typeError, logged e s')
            end
       else (Throw e, logged e s')).
Proof.
  intros Hrun. unfold tryItem, try_catch, bind, handleError. by rewrite Hrun.
Qed.

Lemma loop_failure (l : locals) (n i : nat) (rd : list node_item) (s : state W)
    (e : value) (s' : state W) :
  processItem h l i s = (Throw e, s') ->
  loop h l (S n) i rd s
    = (if continueOnFail h (world s')
       then match errorItem e i with
            | Ok item => loop h l n (S i) (rd ++ [item]) (logged e s')
            | Throw typeError => (Throw typeError, logged e s')
            end
       else (Throw e, logged e s')).
Proof.
  intros Hrun. cbn [loop]. unfold bind. rewrite (tryItem_failure l rd i s e s' Hrun).
  destruct (continueOnFail h (world s')); [|done]. by destruct (errorItem e i).
Qed.

Lemma errorItem_json (e : value) (i : nat) :
  e <> VNull -> e <> VUndefined ->
  errorItem e i
    = Ok {| json := {[ "error" := js_or (read_message e) (VString "An error occurred") ]};
            pairedItem := Some i |}.
Proof. intros Hnull Hundef. by destruct e. Qed.

Lemma js_or_text (text : string) (b : value) :
  text <> "" -> js_or (VString text) b = VString text.
Proof.
  intros Htext. unfold js_or. cbn [truthy].
  destruct (String.eqb text "") eqn:E; [|done].
  apply String.eqb_eq in E. by destruct Htext.
Qed.

(** C3, as the code has it. When the items before item [k] have been
    dealt with and the processing of item [k] throws [e]: without
    continue-on-fail the run ends at once with [e]; under continue-on-fail,
    for [e] other than null and undefined, the item
    [{ json: { error: e.message || 'An error occurred' }, pairedItem }] is
    appended and the loop goes on with item [k + 1]. The error field is
    the message of [e] when that is a non-empty string, and the fixed text
    when [e] has no message or a falsy one. In both cases the
    [console.log] of the handler is the one call made after the failure. *)
Theorem C3_failure_isolation (l : locals) (k n : nat) (s0 : state W)
    (rd : list node_item) (s : state W) (e : value) (s' : state W) :
  loop h l k 0 [] s0 = (Ok rd, s) ->
  processItem h l k s = (Throw e, s') ->
  (continueOnFail h (world s') = false ->
     loop h l (k + S n) 0 [] s0 = (Throw e, logged e s'))
  /\ (continueOnFail h (world s') = true -> e <> VNull -> e <> VUndefined ->
      loop h l (k + S n) 0 [] s0
        = loop h l n (S k)
            (rd ++ [ {| json := {[ "error" := js_or (read_message e)
                                                (VString "An error occurred") ]};
                        pairedItem := Some k |} ])
            (logged e s'))
  /\ (forall text, read_message e = VString text -> text <> "" ->
      js_or (read_message e) (VString "An error occurred") = VString text)
  /\ (truthy (read_message e) = false ->
      js_or (read_message e) (VString "An error occurred") = VString "An error occurred")
  /\ trace (logged e s') = trace s' ++ [EvConsoleLog e].
Proof.
  intros Hbefore Hfail.
  assert (loop h l (k + S n) 0 [] s0 = loop h l (S n) k rd s) as Hk.
  { rewrite loop_app. unfold bind at 1. by rewrite Hbefore. }
  rewrite Hk, (loop_failure l n k rd s e s' Hfail).
  split; [by intros ->|]. split.
  - intros -> Hnull Hundef. by rewrite errorItem_json.
  - split; [intros text -> Htext; by apply js_or_text|].
    split; [apply js_or_falsy|done].
Qed.

(** Under continue-on-fail the loop returns one more item for each
    iteration, unless the handler itself fails, on the message of a thrown
    null or undefined. *)
Lemma loop_continues (l : locals) (n i : nat) (rd : list node_item) (s : state W) :
  (forall w, continueOnFail h w = true) ->
  (exists rd', fst (loop h l n i rd s) = Ok (rd ++ rd') /\ length rd' = n)
  \/ (exists e typeError,
        (e = VNull \/ e = VUndefined)
        /\ error_message e = Throw typeError
        /\ fst (loop h l n i rd s) = Throw typeError).
Proof.
  intros Hcontinue. revert i rd s.
  induction n as [|n IH]; intros i rd s.
  - left. exists []. by rewrite app_nil_r.
  - assert (forall x s1,
               (exists rd', fst (loop h l n (S i) (rd ++ [x]) s1) = Ok (rd ++ rd')
                            /\ length rd' = S n)
               \/ (exists e typeError,
                     (e = VNull \/ e = VUndefined)
                     /\ error_message e = Throw typeError
                     /\ fst (loop h l n (S i) (rd ++ [x]) s1) = Throw typeError)) as Hnext.
    { intros x s1. destruct (IH (S i) (rd ++ [x]) s1) as [(rd' & Hrun & Hlen) | Hthrow];
        [|by right].
      left. exists (x :: rd'). rewrite Hrun, <- app_assoc. cbn [length]. by rewrite Hlen. }
    cbn [loop]. unfold bind, tryItem, try_catch, bind, ret, handleError.
    destruct (processItem h l i s) as [[item|e] s1]; [apply Hnext|].
    rewrite Hcontinue. unfold errorItem.
    destruct e; cbn [error_message fst]; try apply Hnext.
    + right. eexists VUndefined, _. by split; [right|].
    + right. eexists VNull, _. by split; [left|].
Qed.

(** C9. When the agent of item [i] has been built and the prompt input
    comes back undefined, the iteration raises the error whose message is
    [The "text" parameter is empty.]; no call of [execute] has been made
    for the item; under continue-on-fail the item's result carries that
    message and the loop goes on, otherwise the run ends with the error. *)
Theorem C9_empty_text_rejected (l : locals) (i : nat) (s : state W) (a : nat)
    (memory : value) (s1 : state W) (w2 : W) (n : nat) (rd : list node_item) :
  buildAgent h l i s = (Ok (a, memory), s1) ->
  getPromptInputByType h i (world s1) = (Ok VUndefined, w2) ->
  let s2 := MkState w2 (next_instance s1) (trace s1 ++ [EvGetPromptInputByType i]) in
  error_message textParameterEmpty
    = Ok (VString ("The " +:+ dquote +:+ "text" +:+ dquote +:+ " parameter is empty."))
  /\ processItem h l i s = (Throw textParameterEmpty, s2)
  /\ (exists evs,
        trace s2 = trace s ++ evs
        /\ forall b input hist, EvExecute b input hist ∉ evs)
  /\ loop h l (S n) i rd s
     = (if continueOnFail h w2
        then loop h l n (S i)
               (rd ++ [ {| json := {[ "error" := read_message textParameterEmpty ]};
                           pairedItem := Some i |} ])
               (logged textParameterEmpty s2)
        else (Throw textParameterEmpty, logged textParameterEmpty s2)).
Proof.
  intros Hbuild Hinput s2.
  assert (processItem h l i s = (Throw textParameterEmpty, s2)) as Hrun.
  { unfold processItem, bind. rewrite Hbuild. cbn [fst snd].
    unfold runAgent, bind, call, throw. by rewrite Hinput. }
  split; [done|]. split; [done|]. split.
  - destruct (buildAgent_spec l i s) as (evs & Ht & _ & Hother & Hcases).
    rewrite Hbuild in *. cbn [fst snd] in *.
    exists (evs ++ [EvGetPromptInputByType i]).
    split; [cbn [s2 trace]; by rewrite Ht, app_assoc|].
    intros b input hist Hin.
    apply elem_of_app in Hin as [Hin | Hin].
    + apply execute_in_agent_calls in Hin.
      destruct (decide (b = next_instance s)) as [-> | Hne].
      * destruct Hcases as [(Hnone & _) | (k & net & Hcalls & _)].
        -- rewrite Hnone in Hin. by apply elem_of_nil in Hin.
        -- rewrite Hcalls in Hin. by apply no_execute_in_registration in Hin.
      * rewrite (Hother b Hne) in Hin. by apply elem_of_nil in Hin.
    + apply list_elem_of_singleton in Hin. discriminate Hin.
  - rewrite (loop_failure l n i rd s textParameterEmpty s2 Hrun).
    by rewrite errorItem_json.
Qed.

Lemma registerPlugins_app (a : nat) (ps1 ps2 : list value) (s : state W) :
  registerPlugins h a (ps1 ++ ps2) s
    = (let* _ := registerPlugins h a ps1 in registerPlugins h a ps2) s.
Proof.
  revert s. induction ps1 as [|p ps1 IH]; intros s; [done|].
  cbn [app registerPlugins]. unfold bind.
  destruct (call (EvRegisterPlugin a p) (registerPlugin h a p) s) as [[[]|e] s1]; [|done].
  by rewrite IH.
Qed.

(** C10. The compaction drops a handle only when it is undefined: the
    compacted list has every discovered handle that is not undefined,
    null, false, 0 and the empty string among them; and [registerPlugin]
    is called with each of them: with a handle of the list as soon as the
    registrations before it have returned, and, when the agent is built,
    with every handle of the list. *)
Theorem C10_only_undefined_dropped (toolsWithPlugins : list tool_with_plugin)
    (t : tool_with_plugin) (l : locals) (i : nat) (s : state W) (a : nat)
    (ps1 ps2 : list value) (p : value) (s1 : state W) :
  (forall q, q ∈ snd (discovered toolsWithPlugins)
               <-> q ∈ map plugin toolsWithPlugins /\ q <> VUndefined)
  /\ (t ∈ toolsWithPlugins -> plugin t <> VUndefined ->
      plugin t ∈ snd (discovered toolsWithPlugins))
  /\ compact [VNull; VUndefined; VBool false; VNumber (S754_zero false); VString ""]
     = [VNull; VBool false; VNumber (S754_zero false); VString ""]
  /\ (registerPlugins h a ps1 s = (Ok tt, s1) ->
      exists rest,
        trace (snd (registerPlugins h a (ps1 ++ p :: ps2) s))
          = trace s1 ++ EvRegisterPlugin a p :: rest)
  /\ (forall memory s',
      buildAgent h l i s = (Ok (a, memory), s') ->
      forall q, q ∈ plugins l -> EvRegisterPlugin a q ∈ trace s').
Proof.
  assert (forall q, q ∈ snd (discovered toolsWithPlugins)
                      <-> q ∈ map plugin toolsWithPlugins /\ q <> VUndefined) as Hiff.
  { intros q. unfold discovered. rewrite collect_spec. cbn [fst snd app].
    apply elem_of_compact. }
  split; [done|]. split; [|split; [done|split]].
  - intros Hin Hdef. apply Hiff. split; [|done].
    apply list_elem_of_fmap. by exists t.
  - intros Hbefore. rewrite registerPlugins_app. unfold bind at 1. rewrite Hbefore.
    cbn [registerPlugins]. unfold bind, call.
    destruct (registerPlugin h a p (world s1)) as [[[]|e] w].
    + match goal with
      | |- context [registerPlugins h a ps2 ?s2] =>
          destruct (registerPlugins_spec a ps2 s2) as (k & Ht & _)
      end.
      rewrite Ht. cbn [trace]. rewrite <- app_assoc. by eexists.
    + by exists [].
  - intros memory s' Hbuild q Hq.
    destruct (buildAgent_spec l i s) as (evs & Ht & _ & _ & Hcases).
    rewrite Hbuild in *. cbn [fst snd] in *.
    destruct Hcases as [(_ & _ & e & He) | (k & net & Hcalls & _ & _ & Hres)];
      [discriminate He|].
    destruct Hres as [[e He] | (Hfull & memory' & Heq)]; [discriminate He|].
    injection Heq as Ha Hm. subst a memory'.
    rewrite Ht. apply elem_of_app. right.
    apply register_in_trace. rewrite Hcalls, Hfull.
    apply list_elem_of_further. apply list_elem_of_fmap. by exists q.
Qed.

End DriverProperties.

(** ** Network configuration *)

Lemma lookup_getNetworksConfig (urls : rpc_urls) (chain : string) :
  NetworksSpec.getNetworksConfig urls !! chain
    = if NetworksSpec.validRpcUrl (NetworksSpec.supplied urls chain)
      then Some (NetworksSpec.supplied urls chain) else None.
Proof.
  unfold NetworksSpec.getNetworksConfig, NetworksSpec.accept, NetworksSpec.supplied.
  destruct (String.eqb chain "BNB") eqn:Ebnb;
    [apply String.eqb_eq in Ebnb as -> | apply String.eqb_neq in Ebnb].
  { destruct (NetworksSpec.validRpcUrl (BNB urls)); [by rewrite lookup_insert_eq|].
    destruct (NetworksSpec.validRpcUrl (ETH urls)),
             (NetworksSpec.validRpcUrl (SOL urls));
      by rewrite ?lookup_insert_ne by done. }
  destruct (String.eqb chain "ETH") eqn:Eeth;
    [apply String.eqb_eq in Eeth as -> | apply String.eqb_neq in Eeth].
  { destruct (NetworksSpec.validRpcUrl (BNB urls)); rewrite ?lookup_insert_ne by done;
      (destruct (NetworksSpec.validRpcUrl (ETH urls)); [by rewrite lookup_insert_eq|]);
      destruct (NetworksSpec.validRpcUrl (SOL urls));
      by rewrite ?lookup_insert_ne by done. }
  destruct (String.eqb chain "SOL") eqn:Esol;
    [apply String.eqb_eq in Esol as -> | apply String.eqb_neq in Esol].
  { destruct (NetworksSpec.validRpcUrl (BNB urls)); rewrite ?lookup_insert_ne by done;
      (destruct (NetworksSpec.validRpcUrl (ETH urls)); rewrite ?lookup_insert_ne by done);
      destruct (NetworksSpec.validRpcUrl (SOL urls));
      by rewrite ?lookup_insert_eq. }
  cbn [NetworksSpec.validRpcUrl].
  destruct (NetworksSpec.validRpcUrl (BNB urls)),
           (NetworksSpec.validRpcUrl (ETH urls)),
           (NetworksSpec.validRpcUrl (SOL urls));
    by rewrite ?lookup_insert_ne by done.
Qed.

Lemma validRpcUrl_string (url : value) :
  NetworksSpec.validRpcUrl url = true -> exists s, url = VString s /\ s <> "".
Proof.
  destruct url; try discriminate. cbn [NetworksSpec.validRpcUrl]. intros Hs.
  exists s. split; [done|]. intros ->. discriminate Hs.
Qed.

(** C8. In the builder as the spec describes it: a URL is in the
    NetworkConfig only if it is the one supplied for the chain and a
    non-empty string; a supplied value that is not a non-empty string is
    left out when the configuration is built, and so is a URL that was not
    supplied, without the build raising anything; the error comes when a
    plugin is exercised on that chain; and a non-empty string is accepted
    and is what the plugin then gets. *)
Theorem C8_rpc_urls_validated (urls : rpc_urls) (chain : string) :
  (forall url,
      NetworksSpec.getNetworksConfig urls !! chain = Some url ->
      url = NetworksSpec.supplied urls chain /\ exists s, url = VString s /\ s <> "")
  /\ (NetworksSpec.validRpcUrl (NetworksSpec.supplied urls chain) = false ->
      NetworksSpec.getNetworksConfig urls !! chain = None
      /\ NetworksSpec.exercise (NetworksSpec.getNetworksConfig urls) chain
         = Throw (NetworksSpec.capabilityError chain))
  /\ (NetworksSpec.validRpcUrl (NetworksSpec.supplied urls chain) = true ->
      NetworksSpec.exercise (NetworksSpec.getNetworksConfig urls) chain
        = Ok (NetworksSpec.supplied urls chain)).
Proof.
  unfold NetworksSpec.exercise. rewrite lookup_getNetworksConfig.
  split; [|split].
  - intros url Hurl.
    destruct (NetworksSpec.validRpcUrl (NetworksSpec.supplied urls chain)) eqn:Hvalid;
      [|discriminate Hurl].
    injection Hurl as <-. split; [done|]. by apply validRpcUrl_string.
  - by intros ->.
  - by intros ->.
Qed.

(** ** Runs on the sample host *)

Lemma C6_one_instance_per_item_witness :
  0 = next_instance Sample.start
  /\ exists evs,
      trace (snd (processItem (Sample.host true VUndefined VUndefined (VString "12.5"))
                    (Sample.sampleLocals VUndefined) 0 Sample.start))
        = trace Sample.start ++ evs
      /\ agent_calls (next_instance Sample.start) evs
          = [CallNew; CallRegisterPlugin Sample.walletPlugin; CallRegisterPlugin VNull;
             CallExecute]
      /\ forall b, b <> next_instance Sample.start -> agent_calls b evs = [].
Proof.
  refine (proj1 (proj2 (proj2 (C6_one_instance_per_item
                                 (Sample.host true VUndefined VUndefined (VString "12.5"))
                                 (Sample.sampleLocals VUndefined) 0 0 Sample.start
                                 Sample.start [] 0 0)))
            0 VUndefined
            (snd (buildAgent (Sample.host true VUndefined VUndefined (VString "12.5"))
                    (Sample.sampleLocals VUndefined) 0 Sample.start))
            Sample.question 0 _ _ _ _).
  - vm_compute. reflexivity.
  - reflexivity.
  - discriminate.
  - intros Hmemory. discriminate Hmemory.
Defined.

(** C6 as stated fails. In the run of the sample host over three items
    under continue-on-fail, item 1 has no prompt text: an instance is
    constructed for it and given the plugins, and [execute] is never
    called on it, nor on any instance in that iteration. *)
Lemma C6_counterexample_no_execute :
  fst (prepare (Sample.host true VUndefined VUndefined (VString "12.5")) Sample.start)
    = Ok (Sample.sampleLocals VUndefined, 3)
  /\ agent_calls 1
       (trace (snd (execute (Sample.host true VUndefined VUndefined (VString "12.5"))
                      Sample.start)))
     = [CallNew; CallRegisterPlugin Sample.walletPlugin; CallRegisterPlugin VNull]
  /\ (CallExecute
       ∉ agent_calls 1
           (trace (snd (execute (Sample.host true VUndefined VUndefined (VString "12.5"))
                          Sample.start))))
  /\ trace (snd (processItem (Sample.host true VUndefined VUndefined (VString "12.5"))
                   (Sample.sampleLocals VUndefined) 1
                   (snd (loop (Sample.host true VUndefined VUndefined (VString "12.5"))
                           (Sample.sampleLocals VUndefined) 1 0 [] Sample.start))))
     = trace (snd (loop (Sample.host true VUndefined VUndefined (VString "12.5"))
                     (Sample.sampleLocals VUndefined) 1 0 [] Sample.start))
         ++ [EvGetChatModel; EvNewN8nLLM (VString "model"); EvGetOptionalMemory;
             EvGetNodeParameterOptions 1;
             EvGetNetworksConfig (RPC_URLS (Sample.sampleLocals VUndefined));
             EvNewNetwork
               (VObject (NetworksSpec.getNetworksConfig
                           (RPC_URLS (Sample.sampleLocals VUndefined))));
             EvNewWallet (VString placeholderSeed) 0
               (VObject (NetworksSpec.getNetworksConfig
                           (RPC_URLS (Sample.sampleLocals VUndefined))));
             EvNewN8nBinkAgent 1
               {| arg_llm := VString "model";
                  arg_typeAgent := VString "toolsAgent";
                  arg_memory := VUndefined;
                  arg_tools := tools (Sample.sampleLocals VUndefined);
                  arg_outputParser := VUndefined;
                  arg_temperature := one_half;
                  arg_systemPrompt := VString "You are a helpful blockchain assistant.";
                  arg_wallet := VObject {[ "seedPhrase" := VString placeholderSeed ]};
                  arg_networks :=
                    VObject (NetworksSpec.getNetworksConfig
                               (RPC_URLS (Sample.sampleLocals VUndefined)));
                  arg_n8nOptions := VObject ∅ |};
             EvRegisterPlugin 1 Sample.walletPlugin; EvRegisterPlugin 1 VNull;
             EvGetPromptInputByType 1].
Proof.
  split; [vm_compute; reflexivity|].
  assert (agent_calls 1
            (trace (snd (execute (Sample.host true VUndefined VUndefined (VString "12.5"))
                           Sample.start)))
          = [CallNew; CallRegisterPlugin Sample.walletPlugin; CallRegisterPlugin VNull])
    as Hcalls by (vm_compute; reflexivity).
  split; [exact Hcalls|]. split; [|vm_compute; reflexivity].
  rewrite Hcalls. rewrite !elem_of_cons, elem_of_nil.
  intros [H|[H|[H|H]]]; done.
Qed.

Lemma C5_wallet_seed_witness :
  seedPhrase Sample.credentials = VString placeholderSeed
  /\ seedPhrase (<["mnemonic" := VString ""]> Sample.credentials) = VString placeholderSeed
  /\ seedPhrase Sample.fundedCredentials
     = VString "legal winner thank year wave sausage worth useful legal winner thank yellow".
Proof.
  split; [|split].
  - refine (proj1 (C5_wallet_seed (Sample.host true VUndefined VUndefined VNull)
                     (Sample.sampleLocals VUndefined) 0 Sample.start) _).
    reflexivity.
  - refine (proj1 (proj2 (C5_wallet_seed (Sample.host true VUndefined VUndefined VNull)
                     (Locals VNull VNull (<["mnemonic" := VString ""]> Sample.credentials)
                        (RpcUrls VNull VNull VNull) [] [])
                     0 Sample.start)) (VString "") _ _);
      reflexivity.
  - refine (proj1 (proj2 (proj2 (C5_wallet_seed (Sample.host true VUndefined VUndefined VNull)
                     (Locals VNull VNull Sample.fundedCredentials
                        (RpcUrls VNull VNull VNull) [] [])
                     0 Sample.start)))
              "legal winner thank year wave sausage worth useful legal winner thank yellow"
              _ _);
      [reflexivity | discriminate].
Defined.

Lemma C8_rpc_urls_validated_witness :
  NetworksSpec.exercise (NetworksSpec.getNetworksConfig (RPC_URLS (Sample.sampleLocals VUndefined)))
    "BNB" = Ok (VString "https://bsc.example")
  /\ NetworksSpec.getNetworksConfig (RPC_URLS (Sample.sampleLocals VUndefined)) !! "ETH" = None
  /\ NetworksSpec.exercise (NetworksSpec.getNetworksConfig (RPC_URLS (Sample.sampleLocals VUndefined)))
       "SOL" = Throw (NetworksSpec.capabilityError "SOL").
Proof.
  split; [|split].
  - refine (proj2 (proj2 (C8_rpc_urls_validated (RPC_URLS (Sample.sampleLocals VUndefined))
                            "BNB")) _).
    reflexivity.
  - refine (proj1 (proj1 (proj2 (C8_rpc_urls_validated
                                   (RPC_URLS (Sample.sampleLocals VUndefined)) "ETH")) _)).
    reflexivity.
  - refine (proj2 (proj1 (proj2 (C8_rpc_urls_validated
                                   (RPC_URLS (Sample.sampleLocals VUndefined)) "SOL")) _)).
    reflexivity.
Defined.

Lemma C7_memory_passed_to_execute_witness :
  runAgent (Sample.host true Sample.history VUndefined (VString "12.5")) 0 Sample.history 0
      Sample.start
    = (Ok (Sample.respond (VString "12.5") Sample.question),
       MkState 1 0 [EvGetPromptInputByType 0; EvLoadMemoryVariables Sample.history;
                    EvExecute 0 Sample.question (Some Sample.history)])
  /\ runAgent (Sample.host true VUndefined VUndefined (VString "12.5")) 0 VUndefined 0
        Sample.start
    = (Ok (Sample.respond (VString "12.5") Sample.question),
       MkState 1 0 [EvGetPromptInputByType 0; EvExecute 0 Sample.question None]).
Proof.
  split.
  - exact (proj1 (C7_memory_passed_to_execute
                    (Sample.host true Sample.history VUndefined (VString "12.5"))
                    0 Sample.history 0 Sample.start Sample.question 0
                    eq_refl ltac:(discriminate)) eq_refl).
  - exact (proj2 (C7_memory_passed_to_execute
                    (Sample.host true VUndefined VUndefined (VString "12.5"))
                    0 VUndefined 0 Sample.start Sample.question 0
                    eq_refl ltac:(discriminate)) eq_refl).
Defined.

Lemma C3_failure_isolation_witness :
  fst (loop (Sample.host true VUndefined VUndefined (VString "12.5"))
         (Sample.sampleLocals VUndefined) 3 0 [] Sample.start)
    = Ok [itemResult (Sample.respond (VString "12.5") Sample.question);
          {| json := {[ "error" := read_message textParameterEmpty ]};
             pairedItem := Some 1 |};
          itemResult (Sample.respond (VString "12.5") Sample.question)]
  /\ loop (Sample.host false VUndefined VUndefined (VString "12.5"))
        (Sample.sampleLocals VUndefined) 3 0 [] Sample.start
    = (Throw textParameterEmpty,
       logged textParameterEmpty
         (snd (processItem (Sample.host false VUndefined VUndefined (VString "12.5"))
                 (Sample.sampleLocals VUndefined) 1
                 (snd (loop (Sample.host false VUndefined VUndefined (VString "12.5"))
                         (Sample.sampleLocals VUndefined) 1 0 [] Sample.start))))).
Proof.
  split.
  - change 3 with (1 + 2).
    rewrite (proj1 (proj2 (C3_failure_isolation
                      (Sample.host true VUndefined VUndefined (VString "12.5"))
                      (Sample.sampleLocals VUndefined) 1 1 Sample.start
                      [itemResult (Sample.respond (VString "12.5") Sample.question)]
                      (snd (loop (Sample.host true VUndefined VUndefined (VString "12.5"))
                              (Sample.sampleLocals VUndefined) 1 0 [] Sample.start))
                      textParameterEmpty
                      (snd (processItem (Sample.host true VUndefined VUndefined (VString "12.5"))
                              (Sample.sampleLocals VUndefined) 1
                              (snd (loop (Sample.host true VUndefined VUndefined (VString "12.5"))
                                      (Sample.sampleLocals VUndefined) 1 0 [] Sample.start))))
                      ltac:(vm_compute; reflexivity) ltac:(vm_compute; reflexivity)))
               ltac:(reflexivity) ltac:(discriminate) ltac:(discriminate)).
    vm_compute. reflexivity.
  - exact (proj1 (C3_failure_isolation
                    (Sample.host false VUndefined VUndefined (VString "12.5"))
                    (Sample.sampleLocals VUndefined) 1 1 Sample.start
                    [itemResult (Sample.respond (VString "12.5") Sample.question)]
                    (snd (loop (Sample.host false VUndefined VUndefined (VString "12.5"))
                            (Sample.sampleLocals VUndefined) 1 0 [] Sample.start))
                    textParameterEmpty
                    (snd (processItem (Sample.host false VUndefined VUndefined (VString "12.5"))
                            (Sample.sampleLocals VUndefined) 1
                            (snd (loop (Sample.host false VUndefined VUndefined (VString "12.5"))
                                    (Sample.sampleLocals VUndefined) 1 0 [] Sample.start))))
                    ltac:(vm_compute; reflexivity) ltac:(vm_compute; reflexivity))
             ltac:(reflexivity)).
Defined.

(** C3 as stated fails. An error without a message, thrown for the one
    item of a batch under continue-on-fail, gives the item whose [error]
    is the fixed text of line 380, not the (empty) message; and a thrown
    null, under continue-on-fail too, gives no item: reading its
    [message] throws, and the run ends with that TypeError. *)
Lemma C3_counterexample_message :
  read_message (error_object "Error" "") = VString ""
  /\ fst (loop (Sample.failing true (error_object "Error" ""))
            (Sample.sampleLocals VUndefined) 1 0 [] Sample.start)
     = Ok [ {| json := {[ "error" := VString "An error occurred" ]};
               pairedItem := Some 0 |} ]
  /\ fst (loop (Sample.failing true (error_object "Error" ""))
            (Sample.sampleLocals VUndefined) 1 0 [] Sample.start)
     <> Ok [ {| json := {[ "error" := VString "" ]}; pairedItem := Some 0 |} ]
  /\ fst (processItem (Sample.failing true VNull)
            (Sample.sampleLocals VUndefined) 0 Sample.start) = Throw VNull
  /\ continueOnFail (Sample.failing true VNull) 0 = true
  /\ fst (loop (Sample.failing true VNull)
            (Sample.sampleLocals VUndefined) 2 0 [] Sample.start)
     = Throw (error_object "TypeError"
                "Cannot read properties of null (reading 'message')").
Proof.
  split; [reflexivity|]. split; [vm_compute; reflexivity|].
  split; [|split; [reflexivity|split; [reflexivity|vm_compute; reflexivity]]].
  intros Heq.
  apply (f_equal (fun r => match r with
                           | Ok [item] => json item !! "error"
                           | _ => None
                           end)) in Heq.
  vm_compute in Heq. discriminate Heq.
Qed.

Lemma C9_empty_text_rejected_witness :
  fst (processItem (Sample.host true VUndefined VUndefined (VString "12.5"))
         (Sample.sampleLocals VUndefined) 1 Sample.start)
    = Throw textParameterEmpty
  /\ fst (loop (Sample.host true VUndefined VUndefined (VString "12.5"))
            (Sample.sampleLocals VUndefined) 2 1 [] Sample.start)
     = Ok [ {| json := {[ "error" := read_message textParameterEmpty ]};
               pairedItem := Some 1 |};
            itemResult (Sample.respond (VString "12.5") Sample.question) ]
  /\ fst (loop (Sample.host false VUndefined VUndefined (VString "12.5"))
            (Sample.sampleLocals VUndefined) 2 1 [] Sample.start)
     = Throw textParameterEmpty.
Proof.
  split; [|split].
  - rewrite (proj1 (proj2 (C9_empty_text_rejected
                      (Sample.host true VUndefined VUndefined (VString "12.5"))
                      (Sample.sampleLocals VUndefined) 1 Sample.start 0 VUndefined
                      (snd (buildAgent (Sample.host true VUndefined VUndefined (VString "12.5"))
                              (Sample.sampleLocals VUndefined) 1 Sample.start))
                      0 1 []
                      ltac:(vm_compute; reflexivity) ltac:(reflexivity)))).
    reflexivity.
  - rewrite (proj2 (proj2 (proj2 (C9_empty_text_rejected
                      (Sample.host true VUndefined VUndefined (VString "12.5"))
                      (Sample.sampleLocals VUndefined) 1 Sample.start 0 VUndefined
                      (snd (buildAgent (Sample.host true VUndefined VUndefined (VString "12.5"))
                              (Sample.sampleLocals VUndefined) 1 Sample.start))
                      0 1 []
                      ltac:(vm_compute; reflexivity) ltac:(reflexivity))))).
    vm_compute. reflexivity.
  - rewrite (proj2 (proj2 (proj2 (C9_empty_text_rejected
                      (Sample.host false VUndefined VUndefined (VString "12.5"))
                      (Sample.sampleLocals VUndefined) 1 Sample.start 0 VUndefined
                      (snd (buildAgent (Sample.host false VUndefined VUndefined (VString "12.5"))
                              (Sample.sampleLocals VUndefined) 1 Sample.start))
                      0 1 []
                      ltac:(vm_compute; reflexivity) ltac:(reflexivity))))).
    reflexivity.
Defined.

Lemma C10_only_undefined_dropped_witness :
  VNull ∈ snd (discovered Sample.toolsWithPlugins)
  /\ (exists rest,
        trace (snd (registerPlugins (Sample.host true VUndefined VUndefined VNull) 0
                      [Sample.walletPlugin; VNull] Sample.start))
          = [EvRegisterPlugin 0 Sample.walletPlugin] ++ EvRegisterPlugin 0 VNull :: rest)
  /\ EvRegisterPlugin 0 VNull
       ∈ trace (snd (buildAgent (Sample.host true VUndefined VUndefined VNull)
                       (Sample.sampleLocals VUndefined) 0 Sample.start)).
Proof.
  split; [|split].
  - refine (proj1 (proj2 (C10_only_undefined_dropped
                            (Sample.host true VUndefined VUndefined VNull)
                            Sample.toolsWithPlugins
                            {| tool := VString "noop"; plugin := VNull |}
                            (Sample.sampleLocals VUndefined) 0 Sample.start 0 [] [] VNull
                            Sample.start)) _ _).
    + do 2 apply list_elem_of_further. apply list_elem_of_here.
    + discriminate.
  - refine (proj1 (proj2 (proj2 (proj2 (C10_only_undefined_dropped
                            (Sample.host true VUndefined VUndefined VNull)
                            Sample.toolsWithPlugins
                            {| tool := VString "noop"; plugin := VNull |}
                            (Sample.sampleLocals VUndefined) 0 Sample.start 0
                            [Sample.walletPlugin] [] VNull
                            (MkState 0 0 [EvRegisterPlugin 0 Sample.walletPlugin]))))) _).
    reflexivity.
  - refine (proj2 (proj2 (proj2 (proj2 (C10_only_undefined_dropped
                            (Sample.host true VUndefined VUndefined VNull)
                            Sample.toolsWithPlugins
                            {| tool := VString "noop"; plugin := VNull |}
                            (Sample.sampleLocals VUndefined) 0 Sample.start 0 [] [] VNull
                            Sample.start))))
              VUndefined
              (snd (buildAgent (Sample.host true VUndefined VUndefined VNull)
                      (Sample.sampleLocals VUndefined) 0 Sample.start))
              _ VNull _).
    + vm_compute. reflexivity.
    + apply list_elem_of_further. apply list_elem_of_here.
Defined.

(** The locals of the sample runs are those that [prepare] computes, and
    a whole run under continue-on-fail gives one item per input item. *)
Example prepare_sample :
  fst (prepare (Sample.host true VUndefined VUndefined (VString "12.5")) Sample.start)
    = Ok (Sample.sampleLocals VUndefined, 3).
Proof. vm_compute. reflexivity. Qed.

Example execute_sample :
  fst (execute (Sample.host true VUndefined VUndefined (VString "12.5")) Sample.start)
    = Ok [[itemResult (Sample.respond (VString "12.5") Sample.question);
           {| json := {[ "error" := read_message textParameterEmpty ]};
              pairedItem := Some 1 |};
           itemResult (Sample.respond (VString "12.5") Sample.question)]].
Proof. vm_compute. reflexivity. Qed.

Example discovered_sample :
  discovered Sample.toolsWithPlugins
    = ([VString "getBalance"; VString "calculator"; VString "noop"],
       [Sample.walletPlugin; VNull]).
Proof. reflexivity. Qed.

Example itemResult_sample :
  itemResult (Sample.respond (VString "12.5") Sample.question)
    = {| json := {[ "output" := VString "12.5" ]}; pairedItem := None |}.
Proof. vm_compute. reflexivity. Qed.

(** * Further properties of the driver *)

Section DriverExtras.
Context {W : Type} (h : Host W).

(** A call that fails, or the last call of a block, when only the kind of
    the events matters. *)
Ltac events_done :=
  eexists; split; [cbn [snd trace]; rewrite <- ?app_assoc; reflexivity|];
  repeat constructor.

Lemma registerPlugins_events (l : locals) (a i : nat) (s : state W) :
  exists evs,
    trace (snd (registerPlugins h a (plugins l) s)) = trace s ++ evs
    /\ Forall (item_event h l a i) evs.
Proof.
  destruct (registerPlugins_spec h a (plugins l) s) as (k & Ht & _ & _).
  eexists. split; [exact Ht|].
  apply Forall_forall. intros ev Hev.
  apply list_elem_of_fmap in Hev as (p & -> & Hp).
  cbn [item_event]. split; [done|].
  rewrite <- (take_drop k (plugins l)). apply elem_of_app. by left.
Qed.

Lemma buildAgent_events (l : locals) (i : nat) (s : state W) :
  exists evs,
    trace (snd (buildAgent h l i s)) = trace s ++ evs
    /\ Forall (item_event h l (next_instance s) i) evs.
Proof.
  unfold buildAgent, newAgent, alloc, bind, call, ret.
  cbn [world next_instance trace].
  destruct (getChatModel h (world s)) as [[model|e] w1];
    cbn [world next_instance trace]; [|events_done].
  destruct (newN8nLLM h model w1) as [[llm|e] w2];
    cbn [world next_instance trace]; [|events_done].
  destruct (getOptionalMemory h w2) as [[memory|e] w3];
    cbn [world next_instance trace]; [|events_done].
  destruct (getNodeParameterOptions h i w3) as [[n8nOptions|e] w4];
    cbn [world next_instance trace]; [|events_done].
  destruct (getNetworksConfig h (RPC_URLS l) w4) as [[networks|e] w5];
    cbn [world next_instance trace]; [|events_done].
  destruct (newNetwork h networks w5) as [[network|e] w6];
    cbn [world next_instance trace]; [|events_done].
  destruct (newWallet h (seedPhrase (baseCredentials l)) 0 network w6)
    as [[wallet|e] w7]; cbn [world next_instance trace]; [|events_done].
  match goal with
  | |- context [newN8nBinkAgent h (next_instance s) ?args w7] =>
      destruct (newN8nBinkAgent h (next_instance s) args w7) as [[[]|e] w8]
  end; cbn [world next_instance trace]; [|events_done].
  match goal with
  | |- context [registerPlugins h ?a (plugins l) ?s1] =>
      destruct (registerPlugins_events l a i s1) as (evs & Ht & Hevs);
      destruct (registerPlugins h a (plugins l) s1) as [[[]|e] s9]
  end; cbn [fst snd trace next_instance] in *;
    (eexists; split; [rewrite Ht; rewrite <- ?app_assoc; reflexivity|]);
    rewrite !Forall_app; repeat split; try (repeat constructor; fail); done.
Qed.

Lemma runAgent_events (l : locals) (a : nat) (memory : value) (i : nat) (s : state W) :
  exists evs,
    trace (snd (runAgent h a memory i s)) = trace s ++ evs
    /\ Forall (item_event h l a i) evs.
Proof.
  unfold runAgent, bind, call, throw.
  destruct (getPromptInputByType h i (world s)) as [[input|e] w1];
    cbn [world next_instance trace]; [|events_done].
  destruct (not_undefined input) eqn:Hinput; [|events_done].
  assert (input <> VUndefined) as Hdef by (by intros ->).
  destruct (truthy memory) eqn:Hmemory; cbn [world next_instance trace].
  - destruct (loadMemoryVariables h memory w1) as [[chatHistory|e] w2];
      cbn [world next_instance trace].
    + destruct (agentExecute h a input (Some chatHistory) w2) as [r w3].
      eexists; split; [cbn [snd trace]; rewrite <- ?app_assoc; reflexivity|].
      repeat constructor; done.
    + eexists; split; [cbn [snd trace]; rewrite <- ?app_assoc; reflexivity|].
      repeat constructor; done.
  - destruct (agentExecute h a input None w1) as [r w3].
    eexists; split; [cbn [snd trace]; rewrite <- ?app_assoc; reflexivity|].
    repeat constructor; done.
Qed.

Lemma processItem_events (l : locals) (i : nat) (s : state W) :
  exists evs,
    trace (snd (processItem h l i s)) = trace s ++ evs
    /\ Forall (item_event h l (next_instance s) i) evs.
Proof.
  unfold processItem, bind, lift.
  destruct (buildAgent_events l i s) as (evs1 & Ht1 & Hevs1).
  destruct (buildAgent_spec h l i s) as (evs0 & _ & _ & _ & Hcases).
  destruct (buildAgent h l i s) as [[[a memory]|e] s1]; cbn [fst snd] in *;
    [|by exists evs1].
  assert (a = next_instance s) as Ha.
  { destruct Hcases as [(_ & _ & e & He) | (k & net & _ & _ & _ & Hres)];
      [discriminate He|].
    destruct Hres as [[e He] | (_ & memory' & Heq)]; [discriminate He|].
    by injection Heq. }
  clear Hcases. subst a.
  destruct (runAgent_events l (next_instance s) memory i s1) as (evs2 & Ht2 & Hevs2).
  exists (evs1 ++ evs2). split; [|by apply Forall_app].
  assert (trace (snd (runAgent h (next_instance s) memory i s1)) = trace s ++ evs1 ++ evs2)
    as Ht by (by rewrite Ht2, Ht1, app_assoc).
  destruct (runAgent h (next_instance s) memory i s1) as [[response|e] s2];
    cbn [fst snd] in *; [|done].
  by destruct (normalize (jsonParse h) (outputParser l) response).
Qed.

Lemma loop_event_first (l : locals) (a i n : nat) (ev : event) :
  item_event h l a i ev -> loop_event h l i (S n) ev.
Proof. intros Hev. right. exists a, i. split; [lia|done]. Qed.

Lemma loop_event_later (l : locals) (i n : nat) (ev : event) :
  loop_event h l (S i) n ev -> loop_event h l i (S n) ev.
Proof.
  intros [Hlog | (a & j & Hj & Hev)]; [by left|].
  right. exists a, j. split; [lia|done].
Qed.

Lemma tryItem_events (l : locals) (rd : list node_item) (i n : nat) (s : state W) :
  exists evs,
    trace (snd (tryItem h l rd i s)) = trace s ++ evs
    /\ Forall (loop_event h l i (S n)) evs.
Proof.
  destruct (processItem_events l i s) as (evs & Ht & Hevs).
  assert (Forall (loop_event h l i (S n)) evs) as Hloop.
  { eapply Forall_impl; [exact Hevs|]. intros ev. apply loop_event_first. }
  unfold tryItem, try_catch, bind, ret, handleError.
  destruct (processItem h l i s) as [[item|e] s1]; cbn [fst snd] in *;
    [by exists evs|].
  exists (evs ++ [EvConsoleLog e]). split.
  - destruct (continueOnFail h (world (logged e s1))); [destruct (errorItem e i)|];
      cbn [snd logged trace]; by rewrite Ht, app_assoc.
  - apply Forall_app. split; [done|]. apply Forall_singleton. left. by exists e.
Qed.

Lemma loop_events (l : locals) (n i : nat) (rd : list node_item) (s : state W) :
  exists evs,
    trace (snd (loop h l n i rd s)) = trace s ++ evs
    /\ Forall (loop_event h l i n) evs.
Proof.
  revert i rd s. induction n as [|n IH]; intros i rd s.
  - exists []. split; [by rewrite app_nil_r|constructor].
  - cbn [loop]. unfold bind.
    destruct (tryItem_events l rd i n s) as (evs1 & Ht1 & Hevs1).
    destruct (tryItem h l rd i s) as [[rd1|e] s1]; cbn [fst snd] in *;
      [|by exists evs1].
    destruct (IH (S i) rd1 s1) as (evs2 & Ht2 & Hevs2).
    exists (evs1 ++ evs2). split; [by rewrite Ht2, Ht1, app_assoc|].
    apply Forall_app. split; [done|].
    eapply Forall_impl; [exact Hevs2|]. intros ev. apply loop_event_later.
Qed.

Lemma prepare_trace (s : state W) :
  exists k,
    trace (snd (prepare h s)) = trace s ++ take k preparatory
    /\ next_instance (snd (prepare h s)) = next_instance s
    /\ (forall ln, fst (prepare h s) = Ok ln -> k = 5).
Proof.
  unfold prepare, bind, call, ret.
  destruct (getNodeParameterAgent h (world s)) as [[typeAgent|e] w1];
    cbn [world next_instance trace]; [|by exists 1].
  destruct (getInputData h w1) as [[items|e] w2];
    cbn [world next_instance trace];
    [|exists 2; cbn [snd fst trace next_instance]; by rewrite <- ?app_assoc].
  destruct (getOptionalOutputParser h w2) as [[parser|e] w3];
    cbn [world next_instance trace];
    [|exists 3; cbn [snd fst trace next_instance]; by rewrite <- ?app_assoc].
  destruct (getTools h w3) as [[tws|e] w4];
    cbn [world next_instance trace];
    [|exists 4; cbn [snd fst trace next_instance]; by rewrite <- ?app_assoc].
  destruct (getCredentials h w4) as [[creds|e] w5];
    cbn [world next_instance trace];
    exists 5; cbn [snd fst trace next_instance]; by rewrite <- ?app_assoc.
Qed.

Lemma prepare_locals (s : state W) (l : locals) (n : nat) :
  fst (prepare h s) = Ok (l, n) ->
  exists toolsWithPlugins,
    tools l = fst (discovered toolsWithPlugins)
    /\ plugins l = snd (discovered toolsWithPlugins).
Proof.
  unfold prepare, bind, call, ret.
  destruct (getNodeParameterAgent h (world s)) as [[typeAgent|e] w1];
    cbn [world next_instance trace]; [|discriminate].
  destruct (getInputData h w1) as [[items|e] w2];
    cbn [world next_instance trace]; [|discriminate].
  destruct (getOptionalOutputParser h w2) as [[parser|e] w3];
    cbn [world next_instance trace]; [|discriminate].
  destruct (getTools h w3) as [[tws|e] w4];
    cbn [world next_instance trace]; [|discriminate].
  destruct (getCredentials h w4) as [[creds|e] w5];
    cbn [world next_instance trace]; [|discriminate].
  cbn [fst]. intros [= <- <-]. by exists tws.
Qed.

Lemma loop_results (l : locals) (n i : nat) (rd : list node_item) (s : state W)
    (rd' : list node_item) :
  fst (loop h l n i rd s) = Ok rd' ->
  exists new,
    rd' = rd ++ new
    /\ length new = n
    /\ forall k it, new !! k = Some it ->
         (exists r, it = itemResult r) \/ (exists e, errorItem e (i + k) = Ok it).
Proof.
  revert i rd s. induction n as [|n IH]; intros i rd s.
  - cbn. intros [= <-]. exists []. rewrite app_nil_r. split; [done|]. split; [done|].
    intros k it Hk. by rewrite lookup_nil in Hk.
  - cbn [loop]. unfold bind.
    destruct (tryItem h l rd i s) as [[rd1|e] s1] eqn:Htry; [|discriminate].
    intros Hloop. destruct (IH (S i) rd1 s1 Hloop) as (new & -> & Hlen & Hnew).
    assert (exists x, rd1 = rd ++ [x]
                      /\ ((exists r, x = itemResult r) \/ exists e, errorItem e i = Ok x))
      as (x & -> & Hx).
    { revert Htry. unfold tryItem, try_catch, bind, ret, handleError.
      destruct (processItem h l i s) as [[item|e] s0] eqn:Hitem.
      - intros [= <- <-]. exists item. split; [done|]. left.
        by apply processItem_normalized in Hitem.
      - destruct (continueOnFail h (world (logged e s0))); [|discriminate].
        destruct (errorItem e i) as [x|typeError] eqn:Hx; [|discriminate].
        intros [= <- <-]. exists x. split; [done|]. right. by exists e. }
    exists (x :: new). rewrite <- app_assoc. split; [done|].
    split; [cbn [length]; by rewrite Hlen|].
    intros [|k] it Hk.
    + cbn in Hk. injection Hk as <-. by rewrite Nat.add_0_r.
    + cbn in Hk. rewrite Nat.add_succ_r. by apply (Hnew k it).
Qed.

(** A run that returns gives one output list with one item per input
    item, in the order of the input; the item at position [k] is either a
    stripped response or the error item of item [k]. *)
Theorem execute_one_item_per_input (s : state W) (out : list (list node_item)) :
  fst (execute h s) = Ok out ->
  exists l n rd,
    fst (prepare h s) = Ok (l, n)
    /\ out = [rd]
    /\ length rd = n
    /\ forall k it, rd !! k = Some it ->
         (exists r, it = itemResult r) \/ (exists e, errorItem e k = Ok it).
Proof.
  unfold execute, bind, ret.
  destruct (prepare h s) as [[[l n]|e] s1]; cbn [fst snd]; [|discriminate].
  destruct (loop h l n 0 [] s1) as [[rd|e] s2] eqn:Hloop; [|discriminate].
  intros [= <-]. exists l, n, rd. split; [done|]. split; [done|].
  destruct (loop_results l n 0 [] s1 rd) as (new & -> & Hlen & Hnew);
    [by rewrite Hloop|].
  done.
Qed.

(** Under continue-on-fail, once the preparation has returned, the run
    either returns, with as many items as there are input items, or is
    ended by the TypeError that the handler raises when it reads the
    message of a thrown null or undefined; nothing else that fails in the
    iterations ends it. *)
Theorem execute_returns_under_continue (s : state W) (l : locals) (n : nat) :
  (forall w, continueOnFail h w = true) ->
  fst (prepare h s) = Ok (l, n) ->
  (exists rd, fst (execute h s) = Ok [rd] /\ length rd = n)
  \/ (exists e typeError,
        (e = VNull \/ e = VUndefined)
        /\ error_message e = Throw typeError
        /\ fst (execute h s) = Throw typeError).
Proof.
  intros Hcontinue Hprepare. unfold execute, bind, ret.
  destruct (prepare h s) as [[ln|e] s1]; cbn [fst snd] in *; [|discriminate].
  injection Hprepare as ->. cbn [fst snd].
  destruct (loop_continues h l n 0 [] s1 Hcontinue)
    as [(rd & Hrun & Hlen) | (e & typeError & He & Hmessage & Hrun)].
  - left. destruct (loop h l n 0 [] s1) as [[rd'|e] s2]; cbn [fst] in *; [|discriminate].
    injection Hrun as ->. by exists rd.
  - right. destruct (loop h l n 0 [] s1) as [[rd'|e'] s2]; cbn [fst] in *; [discriminate|].
    injection Hrun as ->. by exists e, typeError.
Qed.

(** Without continue-on-fail, a loop that returns has failed on no item:
    every item it added is a stripped response without [pairedItem]. *)
Theorem loop_returns_only_successes (l : locals) (n i : nat) (rd : list node_item)
    (s : state W) (rd' : list node_item) :
  (forall w, continueOnFail h w = false) ->
  fst (loop h l n i rd s) = Ok rd' ->
  exists new,
    rd' = rd ++ new
    /\ length new = n
    /\ Forall (fun it => pairedItem it = None /\ exists r, it = itemResult r) new.
Proof.
  intros Hstop. revert i rd s. induction n as [|n IH]; intros i rd s.
  - cbn. intros [= <-]. exists []. by rewrite app_nil_r.
  - cbn [loop]. unfold bind, tryItem, try_catch, bind, ret, handleError.
    destruct (processItem h l i s) as [[item|e] s1] eqn:Hitem.
    + intros Hloop. destruct (IH (S i) (rd ++ [item]) s1 Hloop) as (new & -> & Hlen & Hnew).
      exists (item :: new). rewrite <- app_assoc. split; [done|].
      split; [cbn [length]; by rewrite Hlen|].
      constructor; [|done].
      apply processItem_normalized in Hitem as [r ->]. split; [done|]. by exists r.
    + rewrite Hstop. discriminate.
Qed.

(** An error of the preparation is the error of the run, and an empty
    batch gives one empty output list; in both cases the run makes no call
    after those of the preparation, which are the first calls of lines
    271-277, in order. *)
Theorem execute_nothing_to_process (s : state W) :
  match fst (prepare h s) with
  | Throw e => execute h s = (Throw e, snd (prepare h s))
  | Ok (l, 0) => execute h s = (Ok [[]], snd (prepare h s))
  | Ok _ => True
  end
  /\ exists k, trace (snd (prepare h s)) = trace s ++ take k preparatory.
Proof.
  split.
  - unfold execute, bind, ret.
    destruct (prepare h s) as [[[l [|n]]|e] s1]; done.
  - destruct (prepare_trace s) as (k & Ht & _). by exists k.
Qed.

Lemma loop_event_not_preparatory (l : locals) (i n : nat) (ev : event) :
  loop_event h l i n ev -> is_preparatory ev = false.
Proof.
  intros [[e ->] | (a & j & _ & Hev)]; [done|]. by destruct ev.
Qed.

Lemma execute_events (w : W) (m : nat) :
  exists k evs,
    trace (snd (execute h (MkState w m []))) = take k preparatory ++ evs
    /\ match fst (prepare h (MkState w m [])) with
       | Ok (l, n) => k = 5 /\ Forall (loop_event h l 0 n) evs
       | Throw _ => evs = []
       end.
Proof.
  unfold execute, bind, ret.
  destruct (prepare_trace (MkState w m [])) as (k & Ht & _ & Hk).
  destruct (prepare h (MkState w m [])) as [[[l n]|e] s1]; cbn [fst snd trace app] in *.
  - destruct (loop_events l n 0 [] s1) as (evs & Htl & Hevs).
    exists k, evs. split; [|split; [by apply (Hk (l, n))|done]].
    destruct (loop h l n 0 [] s1) as [[rd|e] s2]; cbn [fst snd] in *; by rewrite Htl, Ht.
  - exists k, []. by rewrite app_nil_r.
Qed.

Lemma preparatory_events_ok (P : event -> Prop) (k : nat) :
  (forall ev, is_preparatory ev = true -> P ev) -> Forall P (take k preparatory).
Proof.
  intros HP. apply Forall_forall. intros ev Hev.
  apply HP.
  assert (ev ∈ preparatory) as Hin.
  { rewrite <- (take_drop k preparatory). apply elem_of_app. by left. }
  unfold preparatory in Hin.
  repeat (apply elem_of_cons in Hin as [-> | Hin]; [done|]).
  by apply elem_of_nil in Hin.
Qed.

Lemma execute_invariant (P : locals -> event -> Prop) (w : W) (m : nat) :
  (forall l ev, is_preparatory ev = true -> P l ev) ->
  (forall l e, P l (EvConsoleLog e)) ->
  (forall l a i ev, item_event h l a i ev -> P l ev) ->
  match fst (prepare h (MkState w m [])) with
  | Ok (l, _) => Forall (P l) (trace (snd (execute h (MkState w m []))))
  | Throw _ => forall l, Forall (P l) (trace (snd (execute h (MkState w m []))))
  end.
Proof.
  intros Hprep Hlog Hitem.
  destruct (execute_events w m) as (k & evs & Ht & Hres).
  destruct (fst (prepare h (MkState w m []))) as [[l n]|e].
  - destruct Hres as [_ Hevs]. rewrite Ht. apply Forall_app. split.
    + apply preparatory_events_ok. intros ev. apply Hprep.
    + eapply Forall_impl; [exact Hevs|].
      intros ev [[e ->] | (a & j & _ & Hev)]; [apply Hlog | by apply (Hitem l a j)].
  - subst evs. intros l. rewrite Ht, app_nil_r.
    apply preparatory_events_ok. intros ev. apply Hprep.
Qed.

(** Every agent of a run is constructed with the agent type, the tools
    and the output parser of the preparation, with temperature 0.5 and
    with [SYSTEM_MESSAGE] as system prompt, whatever the options of the
    item are. *)
Theorem agents_share_configuration (w : W) (m : nat) :
  match fst (prepare h (MkState w m [])) with
  | Ok (l, _) => Forall (constructed_with h l) (trace (snd (execute h (MkState w m []))))
  | Throw _ =>
      forall l, Forall (constructed_with h l) (trace (snd (execute h (MkState w m []))))
  end.
Proof.
  apply (execute_invariant (constructed_with h)).
  - intros l ev Hev. by destruct ev.
  - done.
  - intros l a i ev Hev. destruct ev; try done. cbn in *. tauto.
Qed.

(** In a whole run [registerPlugin] is never called with undefined. *)
Theorem registerPlugin_never_undefined (w : W) (m : nat) :
  Forall registers_defined (trace (snd (execute h (MkState w m [])))).
Proof.
  pose proof (execute_invariant
                (fun l ev => (exists tws, plugins l = snd (discovered tws)) -> registers_defined ev)
                w m) as Hinv.
  destruct (fst (prepare h (MkState w m []))) as [[l n]|e] eqn:Hprepare.
  - destruct (prepare_locals (MkState w m []) l n Hprepare) as (tws & _ & Hplugins).
    eapply Forall_impl; [apply Hinv|].
    + intros l0 ev Hev _. by destruct ev.
    + done.
    + intros l0 a i ev Hev [tws0 Htws]. destruct ev; try done.
      cbn in *. destruct Hev as [_ Hin]. rewrite Htws in Hin.
      unfold discovered in Hin. cbn [snd] in Hin.
      by apply elem_of_compact in Hin as [_ Hin].
    + intros ev Hev. apply Hev. by exists tws.
  - eapply Forall_impl; [apply (Hinv ltac:(intros l0 ev Hev _; by destruct ev)
                                   ltac:(done)
                                   ltac:(intros l0 a i ev Hev [tws0 Htws];
                                         destruct ev; try done; cbn in *;
                                         destruct Hev as [_ Hin]; rewrite Htws in Hin;
                                         unfold discovered in Hin; cbn [snd] in Hin;
                                         by apply elem_of_compact in Hin as [_ Hin])
                                   (Locals VUndefined VUndefined ∅
                                      (RpcUrls VUndefined VUndefined VUndefined) [] []))|].
    intros ev Hev. apply Hev. by exists [].
Qed.

(** In a whole run [loadMemoryVariables] is only called on a memory that
    is there, and [execute] is never called with an undefined input. *)
Theorem memory_and_input_present (w : W) (m : nat) :
  Forall (fun ev => loads_present_memory ev /\ executes_defined_input ev)
    (trace (snd (execute h (MkState w m [])))).
Proof.
  pose proof (execute_invariant
                (fun _ ev => loads_present_memory ev /\ executes_defined_input ev) w m) as Hinv.
  assert (forall l : locals,
             Forall (fun ev => loads_present_memory ev /\ executes_defined_input ev)
               (trace (snd (execute h (MkState w m []))))) as Hall.
  { destruct (fst (prepare h (MkState w m []))) as [[l n]|e]; intros l0; apply Hinv.
    all: try (intros l1 ev Hev; by destruct ev).
    all: try done.
    all: intros l1 a i ev Hev; destruct ev; try done; cbn in *; tauto. }
  apply (Hall (Locals VUndefined VUndefined ∅ (RpcUrls VUndefined VUndefined VUndefined) [] [])).
Qed.

(** The five preparatory calls are made once per run, in the order of
    lines 271-277, and never again in the loop over the items. *)
Theorem preparatory_calls_once (w : W) (m : nat) :
  match fst (prepare h (MkState w m [])) with
  | Ok _ =>
      List.filter is_preparatory (trace (snd (execute h (MkState w m [])))) = preparatory
  | Throw _ =>
      List.filter is_preparatory (trace (snd (execute h (MkState w m []))))
        `prefix_of` preparatory
  end.
Proof.
  destruct (execute_events w m) as (k & evs & Ht & Hres).
  assert (List.filter is_preparatory (take k preparatory) = take k preparatory) as Hk.
  { do 6 (destruct k as [|k]; [reflexivity|]). reflexivity. }
  rewrite Ht, List.filter_app, Hk.
  destruct (fst (prepare h (MkState w m []))) as [[l n]|e].
  - destruct Hres as [-> Hevs].
    assert (List.filter is_preparatory evs = []) as ->.
    { clear Ht. induction evs as [|ev evs IH]; [done|].
      apply Forall_cons in Hevs as [Hev Hevs]. cbn [List.filter].
      rewrite (loop_event_not_preparatory l 0 n ev Hev). by apply IH. }
    by rewrite app_nil_r.
  - subst evs. cbn [List.filter]. rewrite app_nil_r.
    exists (drop k preparatory). by rewrite take_drop.
Qed.

Lemma tryItem_instances (l : locals) (rd : list node_item) (i : nat) (s : state W) :
  next_instance s <= next_instance (snd (tryItem h l rd i s)) <= S (next_instance s).
Proof.
  destruct (processItem_spec h l i s) as (evs & _ & _ & _ & _ & Hnext & _).
  unfold tryItem, try_catch, bind, ret, handleError.
  destruct (processItem h l i s) as [[item|e] s1]; cbn [fst snd] in *.
  - destruct Hnext as [[_ ->] | ->]; lia.
  - destruct (continueOnFail h (world (logged e s1))); [destruct (errorItem e i)|];
      cbn [snd logged next_instance]; destruct Hnext as [[_ ->] | ->]; lia.
Qed.

(** A loop over [n] items constructs at most [n] agents, and the numbering
    of the instances never goes back. *)
Theorem instances_bounded (l : locals) (n i : nat) (rd : list node_item) (s : state W) :
  next_instance s <= next_instance (snd (loop h l n i rd s)) <= next_instance s + n.
Proof.
  revert i rd s. induction n as [|n IH]; intros i rd s; [cbn; lia|].
  cbn [loop]. unfold bind.
  pose proof (tryItem_instances l rd i s) as Htry.
  destruct (tryItem h l rd i s) as [[rd1|e] s1]; cbn [fst snd] in *; [|lia].
  specialize (IH (S i) rd1 s1). lia.
Qed.

End DriverExtras.

(** ** Seed, error items and normalisation *)

(** The seed phrase handed to the wallet is never undefined, null or
    empty, whatever the credentials hold. *)
Theorem seedPhrase_truthy (baseCredentials : object) :
  truthy (seedPhrase baseCredentials) = true.
Proof.
  unfold seedPhrase, js_or.
  by destruct (truthy (prop baseCredentials "mnemonic")) eqn:E.
Qed.

(** The error item of a thrown value exists unless the value is null or
    undefined, for which reading the message throws. It has exactly the
    field [error], is paired with its input item, and its [error] is a
    truthy value: the message of the thrown value as it is, of whatever
    type, when that is truthy, and the fixed text otherwise. *)
Theorem errorItem_message_nonempty (e : value) (i : nat) :
  match errorItem e i with
  | Ok item =>
      e <> VNull /\ e <> VUndefined
      /\ pairedItem item = Some i
      /\ exists m,
          json item = {[ "error" := m ]}
          /\ truthy m = true
          /\ m = (if truthy (read_message e) then read_message e
                  else VString "An error occurred")
  | Throw typeError =>
      (e = VNull \/ e = VUndefined) /\ error_message e = Throw typeError
  end.
Proof.
  unfold errorItem.
  destruct e; cbn [error_message]; try (split; [by left + by right|done]);
    (split; [done|]); (split; [done|]); (split; [done|]); cbn [json];
    eexists; (split; [reflexivity|]); unfold js_or;
    match goal with
    | |- context [truthy (read_message ?v)] => destruct (truthy (read_message v)) eqn:E
    end; done.
Qed.

(** When the normalisation returns an item, every field but [output] is
    that of the response, the bookkeeping fields apart; without an output
    parser [output] too is that of the response, and with one it is
    there. *)
Theorem normalize_only_output (jp : value -> outcome value) (parser : value)
    (response : object) (item : node_item) (k : string) :
  normalize jp parser response = Ok item ->
  (k <> "output" ->
     json item !! k = if bool_decide (k ∈ bookkeeping) then None else response !! k)
  /\ (if truthy parser then is_Some (json item !! "output")
      else json item !! "output" = response !! "output")
  /\ pairedItem item = None.
Proof.
  unfold normalize, parseOutput.
  destruct (truthy parser).
  - destruct (jp (prop response "output")) as [parsed|e]; [|discriminate].
    intros [= <-]. cbn [itemResult json pairedItem]. rewrite !lookup_omit.
    split; [|split; [|done]].
    + intros Hk. by rewrite lookup_insert_ne.
    + rewrite bool_decide_eq_false_2.
      * rewrite lookup_insert_eq. by eexists.
      * unfold bookkeeping. rewrite !elem_of_cons, elem_of_nil.
        intros [H|[H|[H|[H|[H|H]]]]]; done.
  - intros [= <-]. cbn [itemResult json pairedItem]. rewrite !lookup_omit.
    split; [done|]. split; [|done].
    rewrite bool_decide_eq_false_2; [done|].
    unfold bookkeeping. rewrite !elem_of_cons, elem_of_nil.
    intros [H|[H|[H|[H|[H|H]]]]]; done.
Qed.

Lemma normalize_only_output_witness :
  json (itemResult (<["output" := Sample.payload]>
                      (Sample.respond (VString Sample.wrappedText) Sample.question)))
    !! "agent_scratchpad" = None
  /\ is_Some (json (itemResult (<["output" := Sample.payload]>
                                 (Sample.respond (VString Sample.wrappedText) Sample.question)))
                !! "output").
Proof.
  split.
  - refine (proj1 (normalize_only_output Sample.parse (VObject ∅)
                     (Sample.respond (VString Sample.wrappedText) Sample.question)
                     (itemResult (<["output" := Sample.payload]>
                        (Sample.respond (VString Sample.wrappedText) Sample.question)))
                     "agent_scratchpad" _) _);
      [vm_compute; reflexivity | discriminate].
  - refine (proj1 (proj2 (normalize_only_output Sample.parse (VObject ∅)
                            (Sample.respond (VString Sample.wrappedText) Sample.question)
                            (itemResult (<["output" := Sample.payload]>
                               (Sample.respond (VString Sample.wrappedText) Sample.question)))
                            "output" _))).
    vm_compute; reflexivity.
Defined.

(** The item of a response only lacks fields: its fields are those of the
    response that are not bookkeeping fields, with the values they have in
    the response. *)
Theorem itemResult_fields (response : object) :
  dom (json (itemResult response)) = dom response ∖ list_to_set bookkeeping
  /\ json (itemResult response) ⊆ response.
Proof.
  cbn [itemResult json]. split.
  - apply set_eq. intros k.
    rewrite elem_of_difference, !elem_of_dom, lookup_omit, elem_of_list_to_set.
    case_bool_decide as Hk.
    + split; [by intros [v Hv]|]. by intros [_ Hn].
    + split; [by intros Hv|by intros [Hv _]].
  - apply map_subseteq_spec. intros k v. rewrite lookup_omit.
    by case_bool_decide.
Qed.

(** The two steps of the normalisation commute: replacing [output] and
    then stripping gives the stripped response with [output] replaced;
    whereas a bookkeeping field set before the stripping is lost. *)
Theorem itemResult_output (response : object) (k : string) (v : value) :
  json (itemResult (<[k := v]> response))
    = if bool_decide (k ∈ bookkeeping) then json (itemResult response)
      else <[k := v]> (json (itemResult response)).
Proof.
  cbn [itemResult json].
  destruct (decide (k ∈ bookkeeping)) as [Hk|Hk];
    [rewrite (bool_decide_eq_true_2 _ Hk) | rewrite (bool_decide_eq_false_2 _ Hk)];
    apply map_eq; intros j; rewrite lookup_omit.
  - rewrite lookup_omit. destruct (decide (j ∈ bookkeeping)) as [Hj|Hj].
    + by rewrite !(bool_decide_eq_true_2 _ Hj).
    + rewrite !(bool_decide_eq_false_2 _ Hj).
      rewrite lookup_insert_ne; [done|]. by intros ->.
  - rewrite !lookup_insert. destruct (decide (k = j)) as [<-|Hkj].
    + by rewrite (bool_decide_eq_false_2 _ Hk).
    + by rewrite lookup_omit.
Qed.

(** ** Tool discovery *)

(** Compacting twice is compacting once, and compaction goes through
    concatenation. *)
Theorem compact_idempotent_app (ps qs : list value) :
  compact (compact ps) = compact ps
  /\ compact (ps ++ qs) = compact ps ++ compact qs.
Proof.
  unfold compact. split; [|apply List.filter_app].
  induction ps as [|p ps IH]; [done|].
  cbn [List.filter]. destruct (not_undefined p) eqn:Hp; [|done].
  cbn [List.filter]. by rewrite Hp, IH.
Qed.

Lemma compact_length (ps : list value) :
  length (compact ps) <= length ps
  /\ (length (compact ps) = length ps <-> Forall (fun p => p <> VUndefined) ps).
Proof.
  unfold compact. induction ps as [|p ps [IHle IHiff]]; [by split|].
  cbn [List.filter]. destruct p; cbn [not_undefined length];
    (split; [lia|]); rewrite Forall_cons.
  1: { split; [lia|]. by intros [Hp _]. }
  all: split; [intros Hlen; split; [done|]; apply IHiff; lia
              |intros [_ Hall]; f_equal; by apply IHiff].
Qed.

(** There are as many tools as discovered pairs, at most as many plugins,
    and as many plugins exactly when no pair lacks its handle. *)
Theorem discovered_lengths (toolsWithPlugins : list tool_with_plugin) :
  length (fst (discovered toolsWithPlugins)) = length toolsWithPlugins
  /\ length (snd (discovered toolsWithPlugins)) <= length toolsWithPlugins
  /\ (length (snd (discovered toolsWithPlugins)) = length toolsWithPlugins
      <-> Forall (fun t => plugin t <> VUndefined) toolsWithPlugins).
Proof.
  unfold discovered. rewrite collect_spec. cbn [fst snd app].
  destruct (compact_length (map plugin toolsWithPlugins)) as [Hle Hiff].
  rewrite length_map in *. split; [done|]. split; [done|].
  rewrite Hiff. by rewrite Forall_fmap.
Qed.

(** Discovering a concatenation is concatenating the discoveries. *)
Theorem discovered_app (xs ys : list tool_with_plugin) :
  discovered (xs ++ ys)
    = (fst (discovered xs) ++ fst (discovered ys),
       snd (discovered xs) ++ snd (discovered ys)).
Proof.
  unfold discovered. rewrite !collect_spec. cbn [fst snd app].
  rewrite !map_app. by rewrite (proj2 (compact_idempotent_app _ _)).
Qed.

(** ** The node's inputs *)

Lemma is_string_eq (v : value) (text : string) :
  Inputs.is_string v text = true -> v = VString text.
Proof.
  destruct v; try discriminate. cbn [Inputs.is_string]. intros Hs.
  apply String.eqb_eq in Hs. by subst.
Qed.

(** [getInputData] gives one configuration per special input, in order,
    with the type and the filter of the special input; the [required] of
    the special input is never read: a configuration is required exactly
    when it is the language model's. *)
Lemma getInputData_keeps_types (agent : value) (inputs : list Inputs.SpecialInput) :
  map Inputs.in_type (Inputs.getInputData agent inputs) = map Inputs.si_type inputs
  /\ map Inputs.in_filter (Inputs.getInputData agent inputs) = map Inputs.si_filter inputs
  /\ map Inputs.in_required (Inputs.getInputData agent inputs)
     = map (fun si => String.eqb (Inputs.si_type si) "ai_languageModel") inputs.
Proof.
  unfold Inputs.getInputData. by rewrite !map_map.
Qed.

(** For every agent but the tools agent, the plan-and-execute agent
    among them, the node has the main input only: no model, memory, tool
    or output parser can be connected. *)
Theorem getInputs_other_agents (agent hasOutputParser : value) :
  Inputs.is_string agent "toolsAgent" = false ->
  Inputs.getInputs agent hasOutputParser = [Inputs.Connection "main"].
Proof.
  intros Hagent. unfold Inputs.getInputs. rewrite Hagent.
  by destruct (Inputs.is_false hasOutputParser).
Qed.

Lemma getInputs_other_agents_witness :
  Inputs.getInputs (VString "planAndExecuteAgent") VUndefined = [Inputs.Connection "main"]
  /\ Inputs.getInputs VUndefined (VBool true) = [Inputs.Connection "main"].
Proof.
  split.
  - apply (getInputs_other_agents (VString "planAndExecuteAgent") VUndefined). reflexivity.
  - apply (getInputs_other_agents VUndefined (VBool true)). reflexivity.
Defined.

(** The inputs of the node, by type and in order: the main input first,
    then for the tools agent the model, the memory and the tools, and the
    output parser unless the flag is false. *)
Theorem getInputs_types (agent hasOutputParser : value) :
  map Inputs.input_type (Inputs.getInputs agent hasOutputParser)
    = "main"
      :: (if Inputs.is_string agent "toolsAgent"
          then ["ai_languageModel"; "ai_memory"; "ai_tool"]
               ++ (if Inputs.is_false hasOutputParser then [] else ["ai_outputParser"])
          else []).
Proof.
  destruct (Inputs.is_string agent "toolsAgent") eqn:Hagent.
  - apply is_string_eq in Hagent as ->. unfold Inputs.getInputs.
    by destruct (Inputs.is_false hasOutputParser).
  - by rewrite getInputs_other_agents.
Qed.

(** Of the inputs of the node only the language model is required, the
    tools input is not although line 112 marks it so; and the model, the
    memory and the output parser take one connection, the tools input any
    number. *)
Theorem getInputs_required_and_connections (agent hasOutputParser : value) :
  Forall (fun i =>
            match i with
            | Inputs.Connection type => type = "main"
            | Inputs.Configured c =>
                Inputs.in_required c = String.eqb (Inputs.in_type c) "ai_languageModel"
                /\ Inputs.in_maxConnections c
                   = (if String.eqb (Inputs.in_type c) "ai_tool" then None else Some 1)
            end)
    (Inputs.getInputs agent hasOutputParser).
Proof.
  destruct (Inputs.is_string agent "toolsAgent") eqn:Hagent.
  - apply is_string_eq in Hagent as ->. unfold Inputs.getInputs.
    destruct (Inputs.is_false hasOutputParser); repeat constructor.
  - rewrite getInputs_other_agents by done. repeat constructor.
Qed.

(** Every configured input of the node has a display name: the model's
    is [Chat Model], the others' are those of lines 50-53; and only the
    model input has a filter. *)
Theorem getInputs_labels (agent hasOutputParser : value) :
  Forall (fun i =>
            match i with
            | Inputs.Connection _ => True
            | Inputs.Configured c =>
                Inputs.in_displayName c
                  = (if String.eqb (Inputs.in_type c) "ai_languageModel"
                     then Some "Chat Model" else Inputs.displayNames !! Inputs.in_type c)
                /\ is_Some (Inputs.in_displayName c)
                /\ (if String.eqb (Inputs.in_type c) "ai_languageModel"
                    then is_Some (Inputs.in_filter c)
                    else Inputs.in_filter c = None)
            end)
    (Inputs.getInputs agent hasOutputParser).
Proof.
  destruct (Inputs.is_string agent "toolsAgent") eqn:Hagent.
  - apply is_string_eq in Hagent as ->. unfold Inputs.getInputs.
    destruct (Inputs.is_false hasOutputParser);
      repeat constructor; by eexists.
  - rewrite getInputs_other_agents by done. repeat constructor.
Qed.

(** The expression of the node's inputs offers the output parser input
    exactly when the agent parameter is the tools agent and the
    [hasOutputParser] parameter is undefined or true; any other value of
    that parameter counts as false. *)
Theorem inputs_output_parser (parameter : object) :
  "ai_outputParser" ∈ map Inputs.input_type (Inputs.inputs parameter)
  <-> prop parameter "agent" = VString "toolsAgent"
      /\ (prop parameter "hasOutputParser" = VUndefined
          \/ prop parameter "hasOutputParser" = VBool true).
Proof.
  unfold Inputs.inputs. rewrite getInputs_types.
  destruct (Inputs.is_string (prop parameter "agent") "toolsAgent") eqn:Hagent.
  - apply is_string_eq in Hagent. rewrite Hagent.
    destruct (prop parameter "hasOutputParser") as [| |[|]| | | |];
      cbn [not_undefined negb Inputs.is_true Inputs.is_false orb app];
      rewrite !elem_of_cons, elem_of_nil;
      split; try (intros [_ [?|?]]; discriminate); try (intros [?|[?|[?|[?|?]]]]; done);
      try (intros _; do 4 right; by left); try (intros [?|[?|[?|?]]]; done);
      intros _; split; auto.
  - rewrite !elem_of_cons, elem_of_nil. split; [intros [?|?]; done|].
    intros [Heq _]. rewrite Heq in Hagent. discriminate Hagent.
Qed.

(** ** Further runs on the sample host *)

Lemma execute_one_item_per_input_witness :
  exists l n rd,
    fst (prepare (Sample.host true VUndefined VUndefined (VString "12.5")) Sample.start)
      = Ok (l, n)
    /\ [[itemResult (Sample.respond (VString "12.5") Sample.question);
         {| json := {[ "error" := read_message textParameterEmpty ]};
            pairedItem := Some 1 |};
         itemResult (Sample.respond (VString "12.5") Sample.question)]] = [rd]
    /\ length rd = n
    /\ forall k it, rd !! k = Some it ->
         (exists r, it = itemResult r) \/ (exists e, errorItem e k = Ok it).
Proof.
  apply (execute_one_item_per_input
           (Sample.host true VUndefined VUndefined (VString "12.5")) Sample.start).
  vm_compute. reflexivity.
Defined.

Lemma execute_returns_under_continue_witness :
  (exists rd,
      fst (execute (Sample.host true VUndefined VUndefined (VString "12.5")) Sample.start)
        = Ok [rd]
      /\ length rd = 3)
  \/ (exists e typeError,
        (e = VNull \/ e = VUndefined)
        /\ error_message e = Throw typeError
        /\ fst (execute (Sample.host true VUndefined VUndefined (VString "12.5"))
                  Sample.start) = Throw typeError).
Proof.
  apply (execute_returns_under_continue
           (Sample.host true VUndefined VUndefined (VString "12.5")) Sample.start
           (Sample.sampleLocals VUndefined) 3).
  - intros w. reflexivity.
  - vm_compute. reflexivity.
Defined.

Lemma loop_returns_only_successes_witness :
  exists new,
    [itemResult (Sample.respond (VString "12.5") Sample.question)] = [] ++ new
    /\ length new = 1
    /\ Forall (fun it => pairedItem it = None /\ exists r, it = itemResult r) new.
Proof.
  apply (loop_returns_only_successes
           (Sample.host false VUndefined VUndefined (VString "12.5"))
           (Sample.sampleLocals VUndefined) 1 0 [] Sample.start).
  - intros w. reflexivity.
  - vm_compute. reflexivity.
Defined.
